(** * PYGLIMMPSE: the noncentrality distribution engine

    A shallow embedding of [pyglimmpse/NonCentralityDistribution.py], and
    of the scalar helpers of [pyglimmpse/unirep.py].

    Conventions of the embedding:
    - Python and numpy floating-point numbers are rendered by exact
      rationals ([Q]); rounding is not modelled.
    - a numpy matrix is its shape together with its rows;
    - the numerical collaborators (numpy.linalg, scipy, probf, the weighted
      chi-square solver) are not part of the repository sources: they are
      parameters of the engine, gathered in the record [Collaborators];
    - a Python call either returns a value or raises: [result]. *)

From Stdlib Require Import String QArith Qabs List Bool Arith Lia Lqa Sorted.
Import ListNotations.

Local Open Scope Q_scope.

(** ** Exceptions and results *)

Inductive exn : Type :=
| LinAlgError
| ValueError
| ZeroDivisionError
| IndexError
| TypeError (msg : string)
| AttributeError (attr : string)
| RuntimeError
| Exception (msg : string)
| ExceptionFrom (cause : exn).

Inductive result (A : Type) : Type :=
| Ok (a : A)
| Raise (e : exn).

Arguments Ok {A} a.
Arguments Raise {A} e.

Definition bind {A B : Type} (r : result A) (k : A -> result B) : result B :=
  match r with
  | Ok a => k a
  | Raise e => Raise e
  end.

Notation "x <- r ;; k" := (bind r (fun x => k))
  (at level 61, r at next level, right associativity).

Definition is_ok {A : Type} (r : result A) : bool :=
  match r with Ok _ => true | Raise _ => false end.

(** ** Numbers *)

Definition Qltb (x y : Q) : bool := negb (Qle_bool y x).

(** Python's [x / y] on Python numbers raises on a zero divisor. *)
Definition pydiv (x y : Q) : result Q :=
  if Qeq_bool y 0 then Raise ZeroDivisionError else Ok (x / y).

(** ** Matrices *)

Record matrix : Type := Matrix {
  shape0 : nat;
  shape1 : nat;
  data : list (list Q)
}.

Definition get (m : matrix) (i j : nat) : Q := nth j (nth i (data m) []) 0.

Definition build (r c : nat) (f : nat -> nat -> Q) : matrix :=
  Matrix r c (map (fun i => map (f i) (seq 0 c)) (seq 0 r)).

Definition square (m : matrix) : Prop := shape0 m = shape1 m.

(** [m.T] *)
Definition transpose (m : matrix) : matrix :=
  build (shape1 m) (shape0 m) (fun i j => get m j i).

(** [np.tril(m)]: the entries on and below the diagonal, zero above. *)
Definition tril (m : matrix) : matrix :=
  build (shape0 m) (shape1 m)
        (fun i j => if (j <=? i)%nat then get m i j else 0).

(** [np.triu(m, k)]: the entries on and above the [k]-th diagonal. *)
Definition triu (m : matrix) (k : nat) : matrix :=
  build (shape0 m) (shape1 m)
        (fun i j => if (i + k <=? j)%nat then get m i j else 0).

(** numpy broadcasting of one axis: equal lengths, or one of them is 1. *)
Definition broadcast (a b : nat) : option nat :=
  if (a =? b)%nat then Some a
  else if (b =? 1)%nat then Some a
  else if (a =? 1)%nat then Some b
  else None.

Definition bidx (len i : nat) : nat := if (len =? 1)%nat then 0%nat else i.

(** [a + b] on matrices, entry by entry, with numpy's broadcasting. *)
Definition madd (a b : matrix) : result matrix :=
  match broadcast (shape0 a) (shape0 b), broadcast (shape1 a) (shape1 b) with
  | Some r, Some c =>
      Ok (build r c (fun i j =>
            get a (bidx (shape0 a) i) (bidx (shape1 a) j)
            + get b (bidx (shape0 b) i) (bidx (shape1 b) j)))
  | _, _ => Raise ValueError
  end.

(** Finite sums [f 0 + ... + f (n-1)]. *)
Fixpoint sumn (n : nat) (f : nat -> Q) : Q :=
  match n with
  | O => 0
  | S k => sumn k f + f k
  end.

(** [a * b] on numpy matrices is the matrix product; the inner dimensions
    must agree. *)
Definition matmul (a b : matrix) : result matrix :=
  if (shape1 a =? shape0 b)%nat then
    Ok (build (shape0 a) (shape1 b)
          (fun i j => sumn (shape1 a) (fun k => get a i k * get b k j)))
  else Raise ValueError.

(** [m * c] for a scalar [c]. *)
Definition scale (m : matrix) (c : Q) : matrix :=
  build (shape0 m) (shape1 m) (fun i j => get m i j * c).

(** [m / c] for a numpy scalar [c], entry by entry. *)
Definition unscale (m : matrix) (c : Q) : matrix :=
  build (shape0 m) (shape1 m) (fun i j => get m i j / c).

(** [np.trace(m)] *)
Definition trace (m : matrix) : Q :=
  sumn (Nat.min (shape0 m) (shape1 m)) (fun i => get m i i).

(** [np.identity(b)] *)
Definition identity (b : nat) : matrix :=
  build b b (fun i j => if (i =? j)%nat then 1 else 0).

(** [np.flip(m, 1)]: the columns in reverse order. *)
Definition flip_columns (m : matrix) : matrix :=
  build (shape0 m) (shape1 m) (fun i j => get m i (shape1 m - 1 - j)).

Definition is_empty (m : matrix) : bool :=
  ((shape0 m =? 0) || (shape1 m =? 0))%nat.

(** The diagonal of a matrix, as a list. *)
Definition diagonal (m : matrix) : list Q :=
  map (fun i => get m i i) (seq 0 (Nat.min (shape0 m) (shape1 m))).

(** A value of a member of an [Enum], and Python's truth value of it. *)
Inductive enum_value : Type :=
| IntValue (z : Z)
| StrValue (s : string).

Definition truthy (v : enum_value) : bool :=
  match v with
  | IntValue z => negb (z =? 0)%Z
  | StrValue s => negb (String.eqb s EmptyString)
  end.

(** The numerical-method tag that [probf] returns beside the probability. *)
Inductive fmethod : Type := FMethod (tag : nat).

(** [ChiSquareTerm(lambda, nu, delta)] *)
Record ChiSquareTerm : Type := mkChiSquareTerm {
  term_lambda : Q;
  term_nu : Q;
  term_delta : Q
}.

(** What a call of [cdf] can hand back: a number, the pair that [probf]
    returns, or the frozen distribution object that calling
    [scipy.stats.f] with arguments builds. *)
Inductive pyvalue : Type :=
| Number (q : Q)
| ProbfPair (prob : Q) (method : fmethod)
| FrozenF (dfn dfd loc : Q).

(** The members of [Constants] that tag a test: Hotelling-Lawley trace and
    the UNIREP family. *)
Inductive test_tag : Type := HLT | UN | HF | CM | GG | BOX.

Definition test_eqb (x y : test_tag) : bool :=
  match x, y with
  | HLT, HLT | UN, UN | HF, HF | CM, CM | GG, GG | BOX, BOX => true
  | _, _ => false
  end.

(** The collaborators of the engine: numpy.linalg, [probf], the weighted
    chi-square solver, and the value of the enum member [Constants.HLT]
    (the module [pyglimmpse.constants] is not among the sources). *)
Record Collaborators : Type := {
  linalg_inv : matrix -> result matrix;
  linalg_cholesky : matrix -> result matrix;
  linalg_eig : matrix -> result (list Q * matrix);
  linalg_eigvals : matrix -> result (list Q);
  (* probf(fcrit, df1, df2, noncen) returns (prob, method) *)
  probf : Q -> Q -> Q -> Q -> result (Q * fmethod);
  (* WeightedSumOfNoncentralChiSquaresDistribution(terms, x, y).cdf(w) *)
  weighted_sum_cdf : list ChiSquareTerm -> Q -> Q -> Q -> result Q;
  HLT_value : enum_value
}.

(** ** scipy.optimize.bisect

    The bisection of scipy with its default settings, which is how
    [inverseCDF] calls it: the two end points are evaluated first, then
    the interval is halved at most [maxiter] times. *)
Definition xtol : Q := 2 # 1000000000000.
Definition rtol : Q := 1 # 1125899906842624.
Definition maxiter : nat := 100.

Fixpoint bisect_loop (f : Q -> result Q) (fuel : nat) (xa dm fa : Q)
  : result Q :=
  match fuel with
  | O => Raise RuntimeError
  | S fuel' =>
      let dm := dm * (1 # 2) in
      let xm := xa + dm in
      fm <- f xm ;;
      let xa' := if Qle_bool 0 (fm * fa) then xm else xa in
      if Qeq_bool fm 0 || Qltb (Qabs dm) (xtol + rtol * Qabs xm) then Ok xm
      else bisect_loop f fuel' xa' dm fa
  end.

Definition bisect (f : Q -> result Q) (a b : Q) : result Q :=
  fa <- f a ;;
  fb <- f b ;;
  if Qltb 0 (fa * fb) then Raise ValueError
  else if Qeq_bool fa 0 then Ok a
  else if Qeq_bool fb 0 then Ok b
  else bisect_loop f maxiter a (b - a) fa.

(** ** The class [NonCentralityDistribution] *)

Module NonCentralityDistribution.

Definition ERR_NOT_POSITIVE_DEFINITE : string := "ERR_NOT_POSITIVE_DEFINITE".

Definition MAX_ITERATIONS : Z := 10000%Z.
Definition ACCURACY : Q := 1 # 1000.

(** The running moments of [cdf]. *)
Record moments : Type := mkMoments {
  m1Positive : Q;
  m1Negative : Q;
  m2Positive : Q;
  m2Negative : Q;
  numPositive : nat;
  numNegative : nat;
  lastPositiveNoncentrality : Q;
  lastNegativeNoncentrality : Q;
  chiSquareTerms : list ChiSquareTerm
}.

Definition moments0 : moments := mkMoments 0 0 0 0 0 0 0 0 [].

(** [chiSquareTerms.append(term)] followed by the block "accumulate
    terms", which the source writes out twice, for the base term and in
    the loop. Terms of weight zero are appended and not counted. *)
Definition accumulate (acc : moments) (lambda_ nu delta : Q) : moments :=
  let terms := chiSquareTerms acc ++ [mkChiSquareTerm lambda_ nu delta] in
  if Qltb 0 lambda_ then
    mkMoments (m1Positive acc + lambda_ * (nu + delta))
              (m1Negative acc)
              (m2Positive acc + lambda_ * lambda_ * 2 * (nu + 2 * delta))
              (m2Negative acc)
              (numPositive acc + 1) (numNegative acc)
              delta (lastNegativeNoncentrality acc) terms
  else if Qltb lambda_ 0 then
    mkMoments (m1Positive acc)
              (m1Negative acc + -1 * lambda_ * (nu + delta))
              (m2Positive acc)
              (m2Negative acc + lambda_ * lambda_ * 2 * (nu + 2 * delta))
              (numPositive acc) (numNegative acc + 1)
              (lastPositiveNoncentrality acc) delta terms
  else
    mkMoments (m1Positive acc) (m1Negative acc)
              (m2Positive acc) (m2Negative acc)
              (numPositive acc) (numNegative acc)
              (lastPositiveNoncentrality acc)
              (lastNegativeNoncentrality acc) terms.

(** [values[k]] on a numpy array, and [m[k, 0]] on a matrix. *)
Definition index (values : list Q) (k : nat) : result Q :=
  match nth_error values k with
  | Some v => Ok v
  | None => Raise IndexError
  end.

Definition index2 (m : matrix) (i j : nat) : result Q :=
  if ((i <? shape0 m) && (j <? shape1 m))%nat then Ok (get m i j)
  else Raise IndexError.

(** The loop [while k < self.sStar] of [cdf]; [fuel] is the number of
    iterations still to go. *)
Fixpoint while_terms (sStar : nat) (sEigenValues : list Q) (mzSq : matrix)
    (b0 : Q) (fuel k : nat) (acc : moments) : result moments :=
  match fuel with
  | O => Ok acc
  | S fuel' =>
      if (k <? sStar)%nat then
        if (k <? sStar)%nat then
          ev <- index sEigenValues k ;;
          delta <- index2 mzSq k 0 ;;
          while_terms sStar sEigenValues mzSq b0 fuel' (k + 1)
                      (accumulate acc (b0 - ev) 1 delta)
        else
          delta <- index2 mzSq k 0 ;;
          Raise (AttributeError "add")
      else Ok acc
  end.

(** The class attribute [a = int()], which no method assigns. *)
Definition a : nat := 0.

(** The state of an engine after construction. *)
Record engine : Type := mkEngine {
  T1 : matrix;
  FT1 : matrix;
  S : matrix;
  mzSq : matrix;
  H1 : Q;
  H0 : Q;
  qF : nat;
  N : Q;
  sEigenValues : list Q;
  sStar : nat;
  exact : bool;
  errors : list string
}.

Definition ofnat (n : nat) : Q := inject_Z (Z.of_nat n).

Section Methods.

Variable C : Collaborators.

(** [isPositiveDefinite] *)
Definition isPositiveDefinite (m : matrix) : result bool :=
  if negb (shape0 m =? shape1 m)%nat then
    Raise (Exception "Matrix must be non-null, square")
  else
    eigenvalues <- linalg_eigvals C m ;;
    Ok (forallb (fun val => Qltb 0 val) eigenvalues).

(** [forceSymmetric]: [np.tril(m) + np.triu(m.T, 1)]. *)
Definition forceSymmetric (m : matrix) : result matrix :=
  madd (tril m) (triu (transpose m) 1).

(** The sphericity-adjusted form of the [else] branch of
    [getSigmaStarInverse]. *)
Definition unirepInverse (sigma_star : matrix) : result matrix :=
  let b := shape1 sigma_star in
  let sigmaStarTrace := trace sigma_star in
  squared <- matmul sigma_star sigma_star ;;
  let sigmaStarSquaredTrace := trace squared in
  let epsilon :=
    (sigmaStarTrace * sigmaStarTrace) / (ofnat b * sigmaStarSquaredTrace) in
  Ok (unscale (scale (scale (identity b) (ofnat b)) epsilon) sigmaStarTrace).

(** [getSigmaStarInverse], on the error list of the engine: the list as
    the call leaves it, and what the call returns or raises. *)
Definition getSigmaStarInverse (errs : list string) (sigma_star : matrix)
    (test : test_tag) : list string * result matrix :=
  match isPositiveDefinite sigma_star with
  | Raise e => (errs, Raise e)
  | Ok pd =>
      let errs' :=
        if negb pd then errs ++ [ERR_NOT_POSITIVE_DEFINITE] else errs in
      if test_eqb test HLT || truthy (HLT_value C) then
        (errs', linalg_inv C sigma_star)
      else
        (errs', unirepInverse sigma_star)
  end.

(** The value of [H0] that [initialize] stores. *)
Definition lowerBound (H1 : Q) (sEigenValues : list Q) : Q :=
  let H0 :=
    match sEigenValues with
    | ev0 :: _ => H1 * (1 - ev0)
    | [] => 0
    end in
  if Qle_bool H0 0 then 0 else H0.

(** The loop [for value in self.sEigenValues: if value > 0: sStar += 1]. *)
Definition countPositive (sEigenValues : list Q) : nat :=
  fold_left (fun n value => if Qltb 0 value then (n + 1)%nat else n)
            sEigenValues 0%nat.

(** The two nested loops that square the entries of [mzSq] in place. *)
Definition squareEntries (m : matrix) : matrix :=
  build (shape0 m) (shape1 m) (fun i j => get m i j * get m i j).

(** [initialize], entered from the constructor on a fresh object: the
    engine once all derived state is stored, or the exception that ends
    the construction. The trace [H1] is a numpy number, so [1 / self.H1]
    does not raise at zero: it makes every entry of [S] infinite or
    undefined, which the eigen-decomposition rejects. *)
Definition initialize (test : test_tag) (FEssence : matrix) (perGroupN : Q)
    (Cfixed CGaussian thetaDiff sigmaStar : matrix) (stddevG : Q)
    (exact : bool) : result engine :=
  let N := ofnat (shape0 FEssence) * perGroupN in
  let qF := shape1 FEssence in
  gram <- matmul (transpose FEssence) FEssence ;;
  FtFinverse <- linalg_inv C gram ;;
  p1 <- matmul Cfixed FtFinverse ;;
  rN <- pydiv 1 perGroupN ;;
  PPt <- matmul (scale p1 rN) (transpose Cfixed) ;;
  PPtInverse <- linalg_inv C PPt ;;
  T1 <- forceSymmetric PPtInverse ;;
  FT1 <- linalg_cholesky C T1 ;;
  let '(errs, inverse) := getSigmaStarInverse [] sigmaStar test in
  sigmaStarInverse <- inverse ;;
  h1 <- matmul (transpose thetaDiff) T1 ;;
  h2 <- matmul h1 thetaDiff ;;
  H1matrix <- matmul h2 sigmaStarInverse ;;
  let H1 := trace H1matrix in
  s1 <- matmul (transpose FT1) thetaDiff ;;
  s2 <- matmul s1 sigmaStarInverse ;;
  s3 <- matmul s2 (transpose thetaDiff) ;;
  s4 <- matmul s3 FT1 ;;
  let S := scale s4 (1 / H1) in
  eigen <- (if Qeq_bool H1 0 && negb (is_empty s4) then Raise LinAlgError
            else linalg_eig C S) ;;
  let sEigenValues := rev (fst eigen) in
  let svec := transpose (flip_columns (snd eigen)) in
  let H0 := lowerBound H1 sEigenValues in
  let sStar := countPositive sEigenValues in
  z1 <- matmul svec (transpose FT1) ;;
  z2 <- matmul z1 CGaussian ;;
  rG <- pydiv 1 stddevG ;;
  let mzSq := squareEntries (scale z2 rG) in
  Ok (mkEngine T1 FT1 S mzSq H1 H0 qF N sEigenValues sStar exact errs).

(** [try: ... except Exception as e: raise Exception(e)] *)
Definition reraised {A : Type} (r : result A) : result A :=
  match r with
  | Ok v => Ok v
  | Raise e => Raise (ExceptionFrom e)
  end.

(** The chi-square terms of [cdf(w)] and their moments: the base term,
    then the loop. *)
Definition termMoments (self : engine) (w : Q) : result moments :=
  let b0 := 1 - w / H1 self in
  let nu := N self - ofnat (qF self) in
  while_terms (sStar self) (sEigenValues self) (mzSq self) b0
              (sStar self) 0 (accumulate moments0 b0 nu 0).

(** The end of [cdf], once the moments are known. *)
Definition cdfOfMoments (self : engine) (w : Q) (m : moments)
  : result pyvalue :=
  if (numNegative m =? 0)%nat then Ok (Number 0)
  else if (numPositive m =? 0)%nat then Ok (Number 1)
  else
    let general :=
      if exact self then
        p <- weighted_sum_cdf C (chiSquareTerms m) 0 (1 # 1000) 0 ;;
        Ok (Number p)
      else
        let nuStarPositive :=
          2 * (m1Positive m * m1Positive m) / m2Positive m in
        let nuStarNegative :=
          2 * (m1Negative m * m1Negative m) / m2Negative m in
        let lambdaStarPositive := m2Positive m / (2 * m1Positive m) in
        let lambdaStarNegative := m2Negative m / (2 * m1Negative m) in
        let x := (nuStarNegative * lambdaStarNegative)
                 / (nuStarPositive * lambdaStarPositive) in
        Ok (FrozenF x nuStarPositive nuStarNegative) in
    if ((numNegative m =? 1) && (numPositive m =? 1))%nat then
      let Nstar := N self - ofnat (qF self) + ofnat a - 1 in
      let Fstar := w / (Nstar * (H1 self - w)) in
      if Qle_bool 0 (lastPositiveNoncentrality m)
         && Qeq_bool (lastNegativeNoncentrality m) 0 then
        r <- probf C Fstar Nstar 1 (lastPositiveNoncentrality m) ;;
        Ok (ProbfPair (fst r) (snd r))
      else if Qeq_bool (lastPositiveNoncentrality m) 0
              && Qltb 0 (lastNegativeNoncentrality m) then
        r <- probf C (1 / Fstar) 1 Nstar (lastNegativeNoncentrality m) ;;
        Ok (Number (1 - fst r))
      else general
    else general.

(** [cdf] *)
Definition cdf (self : engine) (w : Q) : result pyvalue :=
  if Qle_bool (H1 self) 0 || Qle_bool w (H0 self) then Ok (Number 0)
  else if Qle_bool (H1 self - w) 0 then Ok (Number 1)
  else reraised (m <- termMoments self w ;; cdfOfMoments self w m).

(** [quantile - self.cdf(n)]: the subtraction is defined on numbers. *)
Definition quantFunc (self : engine) (quantile n : Q) : result Q :=
  v <- cdf self n ;;
  match v with
  | Number p => Ok (quantile - p)
  | _ => Raise (TypeError "unsupported operand type(s) for -")
  end.

(** [inverseCDF]; whatever the bisection raises ends in an exception of
    the handler. *)
Definition inverseCDF (self : engine) (quantile : Q) : result Q :=
  if Qle_bool (H1 self) 0 then Ok 0
  else
    match bisect (quantFunc self quantile) (H0 self) (H1 self) with
    | Ok w => Ok w
    | Raise e => Raise (ExceptionFrom e)
    end.

End Methods.

(** The attributes that an engine has: those that [initialize] assigns,
    those of the class, and the methods. *)
Definition attributes : list string :=
  ["T1"; "FT1"; "S"; "mzSq"; "H0"; "sStar"; "N"; "exact"; "errors"; "qF";
   "H1"; "sEigenValues"; "a";
   "NOT_POSITIVE_DEFINITE"; "MAX_ITERATIONS"; "ACCURACY";
   "initialize"; "setPerGroupSampleSize"; "setBeta"; "cdf"; "inverseCDF";
   "NonCentralityQuantileFunction"; "getSigmaStarInverse"; "getH1";
   "getH0"; "isPositiveDefinite"; "forceSymmetric"]%string.

(** [self.name]: the lookup of an attribute, for its success only. *)
Definition getattr (self : engine) (name : string) : result unit :=
  if existsb (String.eqb name) attributes then Ok tt
  else Raise (AttributeError name).

(** [setPerGroupSampleSize]: the twelve arguments of the call are
    evaluated from left to right, then [initialize], which takes nine, is
    called with them. *)
Definition setPerGroupSampleSize (self : engine) (perGroupN : Q)
  : result engine :=
  _ <- getattr self "test" ;;
  _ <- getattr self "FEssence" ;;
  _ <- getattr self "FtFinverse" ;;
  _ <- getattr self "CFixed" ;;
  _ <- getattr self "CRand" ;;
  _ <- getattr self "U" ;;
  _ <- getattr self "thetaNull" ;;
  _ <- getattr self "beta" ;;
  _ <- getattr self "sigmaError" ;;
  _ <- getattr self "sigmaG" ;;
  _ <- getattr self "exact" ;;
  Raise (TypeError
           "initialize() takes 10 positional arguments but 13 were given").

(** [setBeta] *)
Definition setBeta (self : engine) (beta : Q) : result engine :=
  _ <- getattr self "test" ;;
  _ <- getattr self "FEssence" ;;
  _ <- getattr self "FtFinverse" ;;
  _ <- getattr self "perGroupN" ;;
  _ <- getattr self "CFixed" ;;
  _ <- getattr self "CRand" ;;
  _ <- getattr self "U" ;;
  _ <- getattr self "thetaNull" ;;
  _ <- getattr self "sigmaError" ;;
  _ <- getattr self "sigmaG" ;;
  _ <- getattr self "exact" ;;
  Raise (TypeError
           "initialize() takes 10 positional arguments but 13 were given").

End NonCentralityDistribution.

Module NCD := NonCentralityDistribution.

(** ** An exact instance of the collaborators

    numpy.linalg restricted to diagonal matrices, where inverse, Cholesky
    factor and eigen-decomposition are rational and explicit. It serves to
    run the engine on concrete inputs. Outside diagonal matrices every
    operation of the instance raises. *)

Module DiagLib.

Definition is_diagonal (m : matrix) : bool :=
  (shape0 m =? shape1 m)%nat
  && forallb (fun i =>
       forallb (fun j => (i =? j)%nat || Qeq_bool (get m i j) 0)
               (seq 0 (shape1 m)))
     (seq 0 (shape0 m)).

Definition diag (d : list Q) : matrix :=
  build (length d) (length d)
        (fun i j => if (i =? j)%nat then nth i d 0 else 0).

(** The square root of a rational that is the square of a rational. *)
Definition qsqrt (x : Q) : option Q :=
  let y := Qred x in
  let n := Z.sqrt (Qnum y) in
  let d := Z.sqrt (Zpos (Qden y)) in
  if ((0 <? Qnum y) && (n * n =? Qnum y) && (d * d =? Zpos (Qden y)))%Z
  then Some (n # Z.to_pos d) else None.

Definition sqrt_all (d : list Q) : option (list Q) :=
  fold_right (fun x acc =>
                match qsqrt x, acc with
                | Some r, Some l => Some (r :: l)
                | _, _ => None
                end) (Some []) d.

Definition inv (m : matrix) : result matrix :=
  if is_diagonal m && forallb (fun x => negb (Qeq_bool x 0)) (diagonal m)
  then Ok (diag (map Qinv (diagonal m)))
  else Raise LinAlgError.

Definition cholesky (m : matrix) : result matrix :=
  if is_diagonal m then
    match sqrt_all (diagonal m) with
    | Some l => Ok (diag l)
    | None => Raise LinAlgError
    end
  else Raise LinAlgError.

Definition eig (m : matrix) : result (list Q * matrix) :=
  if is_diagonal m then Ok (diagonal m, identity (shape0 m))
  else Raise LinAlgError.

Definition eigvals (m : matrix) : result (list Q) :=
  if is_diagonal m then Ok (diagonal m) else Raise LinAlgError.

(** A stand-in for [probf]: the distribution function [x / (1 + x)] of
    the central F(2, 2), whatever the degrees of freedom asked for. *)
Definition probf (fcrit df1 df2 noncen : Q) : result (Q * fmethod) :=
  Ok (fcrit / (1 + fcrit), FMethod 0).

Definition weighted_sum_cdf (terms : list ChiSquareTerm) (x y z : Q)
  : result Q := Raise (Exception "solver not available").

Definition collaborators (hlt : enum_value) : Collaborators :=
  Build_Collaborators inv cholesky eig eigvals probf weighted_sum_cdf hlt.

End DiagLib.

(** ** Concrete inputs *)

Definition column (l : list Q) : matrix :=
  build (length l) 1 (fun i _ => nth i l 0).

Definition lib : Collaborators := DiagLib.collaborators (IntValue 1).

(** Two groups, two contrasts, two responses, everything the identity. *)
Definition init_identity2 (sigmaStar : matrix) (exact : bool)
  : result NCD.engine :=
  NCD.initialize lib HLT (identity 2) 1 (identity 2) (column [1; 1])
                 (identity 2) sigmaStar 1 exact.

(** One group of four, one contrast, one response. *)
Definition init_scalar (CGaussian : Q) : result NCD.engine :=
  NCD.initialize lib HLT (identity 1) 4 (identity 1) (column [CGaussian])
                 (identity 1) (identity 1) 1 false.

(** ** The module [unirep]

    The scalar helpers of [pyglimmpse/unirep.py] on which the power
    functions of the UNIREP tests rest. Their arguments are Python
    numbers, so a division raises on a zero divisor. A call can issue
    warnings before it returns or raises: [warned] pairs the warnings
    issued, in order, with the outcome. *)

Module unirep.

Definition warned (A : Type) : Type := (list string * result A)%type.

Definition PowerWarn17 : string :=
  "PowerWarn17: The approximate expected value of estimated epsilon was truncated up to 1/B.".

Definition PowerWarn18 : string :=
  "PowerWarn18: The approximate expected value of estimated epsilon was truncated down to 1.".

Definition HDLSS_warning : string :=
  "Power is missing, because Uncorrected, Geisser-Greenhouse and Box tests are poorly behaved (super low power and test size) when B > N-R, i.e., HDLSS.".

(** A float argument on which the code asks [np.isnan]. *)
Inductive pyfloat : Type :=
| Real (q : Q)
| NaN.

Definition isnan (x : pyfloat) : bool :=
  match x with
  | NaN => true
  | Real _ => false
  end.

Definition fmethod_eqb (x y : fmethod) : bool :=
  match x, y with
  | FMethod s, FMethod t => (s =? t)%nat
  end.

(** [_calc_cm_expected_epsilon_estimator] *)
Definition _calc_cm_expected_epsilon_estimator (exeps rank_X total_N : Q)
  : result Q :=
  uefactor <-
    (if Qeq_bool (total_N - rank_X) 1 then Ok 1
     else
       let nu_e := total_N - rank_X in
       let nu_a := (nu_e - 1) + nu_e * (nu_e - 1) / 2 in
       pydiv ((nu_a - 2) * (nu_a - 4)) (nu_a ^ 2)) ;;
  Ok (uefactor * exeps).

(** [_calc_undf1_undf2] *)
Definition _calc_undf1_undf2 (approximation : test_tag) (exeps : pyfloat)
    (nue rank_C rank_U : Q) : warned (Q * Q) :=
  if Qltb nue rank_U
     && (test_eqb approximation UN || test_eqb approximation GG
         || test_eqb approximation BOX)
  then ([HDLSS_warning], Raise (Exception "#TODO what kind of exception"))
  else if isnan exeps || Qle_bool nue 0
  then ([], Raise (Exception "exeps is NaN or total_N  <= rank_X"))
  else
    let undf1 := rank_C * rank_U in
    let undf2 := rank_U * nue in
    ([], Ok (undf1, undf2)).

(** [_err_checking] *)
Definition _err_checking (e_1_2 rank_U : Q) : warned Q :=
  match pydiv 1 rank_U with
  | Raise e => ([], Raise e)
  | Ok lower =>
      let '(e_1_2, issued) :=
        if Qltb e_1_2 lower then (lower, [PowerWarn17]) else (e_1_2, []) in
      if Qltb 1 e_1_2 then (issued ++ [PowerWarn18], Ok 1)
      else (issued, Ok e_1_2)
  end.

Section PowerFunctions.

(** [probf] comes with the collaborators; the member
    [Constants.FMETHOD_NORMAL_LR] is a parameter. *)
Variable C : Collaborators.
Variable FMETHOD_NORMAL_LR : fmethod.

(** [_calc_power_muller_approx] *)
Definition _calc_power_muller_approx
    (undf1 undf2 omega alpha e_3_5 e_4 fcrit : Q) : result (Q * Q * Q) :=
  let df1 := undf1 * e_3_5 in
  let df2 := undf2 * e_4 in
  r <- probf C fcrit df1 df2 omega ;;
  let '(prob, fmethod) := r in
  let power :=
    if fmethod_eqb fmethod FMETHOD_NORMAL_LR && Qeq_bool prob 1 then alpha
    else 1 - prob in
  Ok (df1, df2, power).

(** The classes [HypothesisError] and [Power] and the members of
    [Constants] that name a method are not among the sources: the
    constructor of the first is a parameter. *)
Variables hypothesis_error power_object method_tag : Type.
Variable HypothesisError : matrix -> matrix -> Q -> result hypothesis_error.

(** [unirep_power_known_sigma]. The call of
    [_calc_multipliers_known_sigma], which takes six arguments, passes
    eight; the statements after it are never reached. *)
Definition unirep_power_known_sigma (rank_C rank_U total_N rank_X : Q)
    (error_sum_square hypo_sum_square : matrix) (exeps : pyfloat)
    (eps alpha : Q) (approximation : test_tag) (unirepmethod : method_tag)
  : warned power_object :=
  let nue := total_N - rank_X in
  match _calc_undf1_undf2 approximation exeps nue rank_C rank_U with
  | (issued, Raise e) => (issued, Raise e)
  | (issued, Ok (undf1, undf2)) =>
      let sigma_star := unscale error_sum_square nue in
      match HypothesisError hypo_sum_square sigma_star rank_U with
      | Raise e => (issued, Raise e)
      | Ok hypothesis_error =>
          (issued,
           Raise (TypeError
             "_calc_multipliers_known_sigma() takes 6 positional arguments but 8 were given"))
      end
  end.

End PowerFunctions.

End unirep.

(** ** Vocabulary of the statements *)

(** The entries of [forceSymmetric m] for a square [m]. *)
Definition symmetrized (m : matrix) (i j : nat) : Q :=
  (if (j <=? i)%nat then get m i j else 0)
  + (if (i + 1 <=? j)%nat then get m j i else 0).

Definition not_square_message : string := "Matrix must be non-null, square".


(** The number of strictly positive members of a list. *)
Definition positives (l : list Q) : nat :=
  length (filter (fun v => Qltb 0 v) l).

(** Matrices as functions of their indices: product over an inner
    dimension [n], transpose, and trace. *)
Definition fmul (n : nat) (A B : nat -> nat -> Q) : nat -> nat -> Q :=
  fun i j => sumn n (fun k => A i k * B k j).

Definition ft (A : nat -> nat -> Q) : nat -> nat -> Q := fun i j => A j i.

Definition ftrace (n : nat) (A : nat -> nat -> Q) : Q :=
  sumn n (fun i => A i i).

Definition feq (A B : nat -> nat -> Q) : Prop := forall i j, A i j == B i j.




(** [A = L L^T], entry by entry: the contract of a Cholesky factor. *)
Definition cholesky_factor (A L : matrix) : Prop :=
  forall q p, (q < shape0 A)%nat -> (p < shape1 A)%nat ->
    get A q p == sumn (shape1 L) (fun r => get L q r * get L p r).





(** The rows of [FT1.T * thetaDiff], as functions, and the bilinear form
    of the inverse form [W] on them: the matrix of which [S] is a
    multiple. *)
Definition rowsY (theta L : matrix) : nat -> nat -> Q :=
  fmul (shape0 theta) (ft (get L)) (get theta).

Definition formY (theta L W : matrix) : nat -> nat -> Q :=
  fmul (shape1 theta)
       (fmul (shape1 theta) (rowsY theta L) (get W))
       (ft (rowsY theta L)).

(** The moments of the positive terms are positive, those of the negative
    terms are not negative, and positive once a negative term has been
    counted. *)
Definition moments_positive (m : NCD.moments) : Prop :=
  0 < NCD.m1Positive m /\ 0 < NCD.m2Positive m /\
  0 <= NCD.m1Negative m /\ 0 <= NCD.m2Negative m /\
  ((1 <= NCD.numNegative m)%nat ->
   0 < NCD.m1Negative m /\ 0 < NCD.m2Negative m).


(** * Proofs *)

(** ** Numbers *)

Lemma Qltb_iff (x y : Q) : Qltb x y = true <-> x < y.
Proof.
  unfold Qltb. rewrite negb_true_iff. split; intro H.
  - apply Qnot_le_lt. intro L. apply Qle_bool_iff in L. congruence.
  - destruct (Qle_bool y x) eqn:E; [|reflexivity].
    apply Qle_bool_iff in E. exfalso. exact (Qlt_not_le _ _ H E).
Qed.

Lemma Qltb_false_iff (x y : Q) : Qltb x y = false <-> y <= x.
Proof.
  unfold Qltb. rewrite negb_false_iff. apply Qle_bool_iff.
Qed.

(** Adding the literal zero does not change the representation of a
    rational, on either side. *)
Lemma Qplus_zero_r (x : Q) : x + 0 = x.
Proof.
  destruct x as [n d]. unfold Qplus. cbn [Qnum Qden].
  rewrite Z.mul_1_r, Z.mul_0_l, Z.add_0_r, Pos.mul_1_r. reflexivity.
Qed.

Lemma Qplus_zero_l (x : Q) : 0 + x = x.
Proof.
  destruct x as [n d]. unfold Qplus. cbn [Qnum Qden].
  rewrite Z.mul_1_r, Z.mul_0_l, Z.add_0_l. reflexivity.
Qed.

(** ** Basic facts on matrices *)

Lemma get_build (r c : nat) (f : nat -> nat -> Q) (i j : nat) :
  (i < r)%nat -> (j < c)%nat -> get (build r c f) i j = f i j.
Proof.
  intros Hi Hj. unfold get, build. cbn [data].
  rewrite (nth_indep _ [] (map (f 0%nat) (seq 0 c))).
  - rewrite (map_nth (fun i => map (f i) (seq 0 c)) (seq 0 r) 0%nat i).
    rewrite seq_nth by assumption. cbn [Nat.add].
    rewrite (nth_indep _ 0 (f i 0%nat)).
    + rewrite (map_nth (f i) (seq 0 c) 0%nat j).
      rewrite seq_nth by assumption. reflexivity.
    + rewrite length_map, length_seq. assumption.
  - rewrite length_map, length_seq. assumption.
Qed.

Lemma shape0_build (r c : nat) (f : nat -> nat -> Q) :
  shape0 (build r c f) = r.
Proof. reflexivity. Qed.

Lemma shape1_build (r c : nat) (f : nat -> nat -> Q) :
  shape1 (build r c f) = c.
Proof. reflexivity. Qed.

Lemma build_ext (r c : nat) (f g : nat -> nat -> Q) :
  (forall i j, (i < r)%nat -> (j < c)%nat -> f i j = g i j) ->
  build r c f = build r c g.
Proof.
  intro H. unfold build. f_equal.
  apply map_ext_in. intros i Hi. apply in_seq in Hi.
  apply map_ext_in. intros j Hj. apply in_seq in Hj.
  apply H; lia.
Qed.

Lemma broadcast_same (n : nat) : broadcast n n = Some n.
Proof. unfold broadcast. rewrite Nat.eqb_refl. reflexivity. Qed.

Lemma bidx_lt (n i : nat) : (i < n)%nat -> bidx n i = i.
Proof.
  unfold bidx. intro H. destruct (n =? 1)%nat eqn:E; [|reflexivity].
  apply Nat.eqb_eq in E. lia.
Qed.

Lemma forceSymmetric_square (m : matrix) :
  square m ->
  NCD.forceSymmetric m = Ok (build (shape0 m) (shape0 m) (symmetrized m)).
Proof.
  unfold square. intro Hsq.
  unfold NCD.forceSymmetric, madd, tril, triu, transpose.
  rewrite !shape0_build, !shape1_build.
  rewrite <- Hsq, broadcast_same. f_equal.
  apply build_ext. intros i j Hi Hj.
  rewrite !bidx_lt by assumption.
  rewrite !get_build by assumption.
  reflexivity.
Qed.

Lemma symmetrized_sym (m : matrix) (i j : nat) :
  symmetrized m i j = symmetrized m j i.
Proof.
  unfold symmetrized.
  destruct (j <=? i)%nat eqn:A; destruct (i + 1 <=? j)%nat eqn:B;
    destruct (i <=? j)%nat eqn:C; destruct (j + 1 <=? i)%nat eqn:D;
    try apply Nat.leb_le in A; try apply Nat.leb_gt in A;
    try apply Nat.leb_le in B; try apply Nat.leb_gt in B;
    try apply Nat.leb_le in C; try apply Nat.leb_gt in C;
    try apply Nat.leb_le in D; try apply Nat.leb_gt in D;
    try lia.
  - assert (i = j) by lia. subst. reflexivity.
  - rewrite Qplus_zero_r, Qplus_zero_l. reflexivity.
  - rewrite Qplus_zero_r, Qplus_zero_l. reflexivity.
Qed.

(** C9: for every square matrix [m], [NCD.forceSymmetric m] returns a matrix
    [r] of the shape of [m] that is equal to its own transpose, and whose
    entries on and below the diagonal are those of [m]. *)
Theorem forceSymmetric_symmetric_lower (m : matrix) :
  square m ->
  exists r,
    NCD.forceSymmetric m = Ok r /\
    shape0 r = shape0 m /\ shape1 r = shape1 m /\
    transpose r = r /\
    (forall i j, (j <= i)%nat -> (i < shape0 m)%nat -> get r i j = get m i j).
Proof.
  intro Hsq. eexists. split; [apply forceSymmetric_square; exact Hsq|].
  rewrite shape0_build, shape1_build. repeat split.
  - exact Hsq.
  - unfold transpose. rewrite shape0_build, shape1_build.
    apply build_ext. intros i j Hi Hj.
    rewrite get_build by assumption. apply symmetrized_sym.
  - intros i j Hji Hi.
    rewrite get_build by lia. unfold symmetrized.
    assert (A : (j <=? i)%nat = true) by (apply Nat.leb_le; lia).
    assert (B : (i + 1 <=? j)%nat = false) by (apply Nat.leb_gt; lia).
    rewrite A, B. apply Qplus_zero_r.
Qed.

Lemma forceSymmetric_symmetric_lower_witness :
  square (identity 2) /\
  exists r,
    NCD.forceSymmetric (identity 2) = Ok r /\
    shape0 r = 2%nat /\ shape1 r = 2%nat /\
    transpose r = r /\
    (forall i j, (j <= i)%nat -> (i < 2)%nat ->
                 get r i j = get (identity 2) i j).
Proof.
  split; [reflexivity|].
  apply (forceSymmetric_symmetric_lower (identity 2)). reflexivity.
Defined.

(** ** Positive definiteness and the inverse of [sigma_star] *)


Lemma isPositiveDefinite_raises (C : Collaborators) (m : matrix) :
  shape0 m <> shape1 m ->
  NCD.isPositiveDefinite C m = Raise (Exception not_square_message).
Proof.
  intro H. unfold NCD.isPositiveDefinite.
  apply Nat.eqb_neq in H. rewrite H. reflexivity.
Qed.

(** Runs a hypothesis [H : (x <- r ;; k) = Ok v] through its first call. *)
Ltac step_as H x :=
  match type of H with
  | bind ?r _ = Ok _ =>
      destruct r as [x|] eqn:?; cbn [bind] in H; [|discriminate H]
  end.

(** C10: [isPositiveDefinite] raises on every matrix that is not square,
    so [getSigmaStarInverse] raises with the error list left as it was,
    and constructing the engine with such a [sigma_star] never returns
    an engine. *)
Theorem nonsquare_sigma_raises (C : Collaborators) (m : matrix) :
  shape0 m <> shape1 m ->
  NCD.isPositiveDefinite C m = Raise (Exception not_square_message) /\
  (forall errs test,
      NCD.getSigmaStarInverse C errs m test
      = (errs, Raise (Exception not_square_message))) /\
  (forall test FEssence perGroupN Cfixed CGaussian thetaDiff stddevG exact,
      is_ok (NCD.initialize C test FEssence perGroupN Cfixed CGaussian
                            thetaDiff m stddevG exact) = false).
Proof.
  intro H. pose proof (isPositiveDefinite_raises C m H) as R.
  assert (G : forall errs test,
             NCD.getSigmaStarInverse C errs m test
             = (errs, Raise (Exception not_square_message))).
  { intros. unfold NCD.getSigmaStarInverse. rewrite R. reflexivity. }
  split; [exact R|]. split; [exact G|].
  intros. unfold NCD.initialize. rewrite G.
  repeat match goal with
         | |- is_ok (bind ?r _) = false => destruct r; cbn [bind]
         end; reflexivity.
Qed.

Lemma nonsquare_sigma_raises_witness :
  shape0 (column [1; 2]) <> shape1 (column [1; 2]) /\
  NCD.isPositiveDefinite lib (column [1; 2])
  = Raise (Exception not_square_message) /\
  is_ok (init_identity2 (column [1; 2]) false) = false.
Proof.
  assert (H : shape0 (column [1; 2]) <> shape1 (column [1; 2]))
    by (cbn; lia).
  split; [exact H|].
  destruct (nonsquare_sigma_raises lib (column [1; 2]) H) as [R [_ I]].
  split; [exact R|]. unfold init_identity2. apply I.
Defined.

(** The branch of [getSigmaStarInverse] once the value of
    [Constants.HLT] is known to be falsy: the test decides. *)
Lemma getSigmaStarInverse_falsy (C : Collaborators) errs sigma_star test pd :
  truthy (HLT_value C) = false ->
  NCD.isPositiveDefinite C sigma_star = Ok pd ->
  snd (NCD.getSigmaStarInverse C errs sigma_star test)
  = if test_eqb test HLT then linalg_inv C sigma_star
    else NCD.unirepInverse sigma_star.
Proof.
  intros F P. unfold NCD.getSigmaStarInverse. rewrite P, F, orb_false_r.
  destruct (test_eqb test HLT); reflexivity.
Qed.

(** C1 (as the code has it): the condition
    [test == Constants.HLT or Constants.HLT.value] holds for every test as
    soon as the value of the enum member is truthy, so every test, those
    of the UNIREP family included, gets the direct inverse of
    [sigma_star]; the sphericity-adjusted form is never returned. *)
Theorem getSigmaStarInverse_always_direct (C : Collaborators)
    errs sigma_star test pd :
  truthy (HLT_value C) = true ->
  NCD.isPositiveDefinite C sigma_star = Ok pd ->
  snd (NCD.getSigmaStarInverse C errs sigma_star test)
  = linalg_inv C sigma_star.
Proof.
  intros T P. unfold NCD.getSigmaStarInverse. rewrite P, T, orb_true_r.
  reflexivity.
Qed.

(** At [sigma_star = diag(1, 2)] and the Geisser-Greenhouse test the
    engine gets [diag(1, 1/2)], where the sphericity-adjusted form is
    [3/5] times the identity. *)
Lemma getSigmaStarInverse_always_direct_witness :
  truthy (HLT_value lib) = true /\
  NCD.isPositiveDefinite lib (DiagLib.diag [1; 2]) = Ok true /\
  snd (NCD.getSigmaStarInverse lib [] (DiagLib.diag [1; 2]) GG)
  = linalg_inv lib (DiagLib.diag [1; 2]) /\
  (exists r u,
      linalg_inv lib (DiagLib.diag [1; 2]) = Ok r /\
      NCD.unirepInverse (DiagLib.diag [1; 2]) = Ok u /\
      get r 1 1 == 1 # 2 /\ get u 1 1 == 3 # 5).
Proof.
  split; [reflexivity|]. split; [reflexivity|]. split.
  - apply (getSigmaStarInverse_always_direct lib [] (DiagLib.diag [1; 2])
             GG true); reflexivity.
  - eexists. eexists. split; [reflexivity|]. split; [reflexivity|].
    split; reflexivity.
Defined.

(** ** The mutators *)

(** C7 (as the code has it): [setPerGroupSampleSize] and [setBeta] read
    [self.test] first, an attribute that no engine has; each call raises
    and nothing is recomputed. *)
Theorem mutators_raise (self : NCD.engine) (x : Q) :
  NCD.setPerGroupSampleSize self x = Raise (AttributeError "test") /\
  NCD.setBeta self x = Raise (AttributeError "test").
Proof. split; reflexivity. Qed.

(** ** What a completed construction stored *)

(** The intermediate values of a run of [initialize] that returned an
    engine. *)
Lemma initialize_Ok (C : Collaborators) test FEssence perGroupN Cfixed
    CGaussian thetaDiff sigmaStar stddevG exact (st : NCD.engine) :
  NCD.initialize C test FEssence perGroupN Cfixed CGaussian thetaDiff
                 sigmaStar stddevG exact = Ok st ->
  exists T1 FT1 errs W h1 h2 Hm s1 s2 s3 s4 evs vecs mz,
    linalg_cholesky C T1 = Ok FT1 /\
    NCD.getSigmaStarInverse C [] sigmaStar test = (errs, Ok W) /\
    matmul (transpose thetaDiff) T1 = Ok h1 /\
    matmul h1 thetaDiff = Ok h2 /\
    matmul h2 W = Ok Hm /\
    matmul (transpose FT1) thetaDiff = Ok s1 /\
    matmul s1 W = Ok s2 /\
    matmul s2 (transpose thetaDiff) = Ok s3 /\
    matmul s3 FT1 = Ok s4 /\
    Qeq_bool (trace Hm) 0 && negb (is_empty s4) = false /\
    linalg_eig C (scale s4 (1 / trace Hm)) = Ok (evs, vecs) /\
    st = NCD.mkEngine T1 FT1 (scale s4 (1 / trace Hm)) mz (trace Hm)
           (NCD.lowerBound (trace Hm) (rev evs))
           (shape1 FEssence)
           (NCD.ofnat (shape0 FEssence) * perGroupN)
           (rev evs) (NCD.countPositive (rev evs)) exact errs.
Proof.
  intro H. unfold NCD.initialize in H.
  step_as H gram. step_as H FtFinverse. step_as H p1. step_as H rN.
  step_as H PPt. step_as H PPtInverse. step_as H T1. step_as H FT1.
  destruct (NCD.getSigmaStarInverse C [] sigmaStar test) as [errs inverse]
    eqn:G.
  step_as H W. step_as H h1. step_as H h2. step_as H Hm.
  step_as H s1. step_as H s2. step_as H s3. step_as H s4.
  destruct (Qeq_bool (trace Hm) 0 && negb (is_empty s4)) eqn:Z;
    cbn [bind] in H.
  { discriminate H. }
  step_as H eigen. step_as H z1. step_as H z2. step_as H rG.
  destruct eigen as [evs vecs]. cbn [fst snd] in H.
  injection H as <-.
  exists T1, FT1, errs, W, h1, h2, Hm, s1, s2, s3, s4, evs, vecs.
  eexists. repeat split; try eassumption; reflexivity.
Qed.

(** ** The error list *)





(** ** Eigenvalues *)



Lemma countPositive_from (l : list Q) (n : nat) :
  fold_left (fun n value => if Qltb 0 value then (n + 1)%nat else n) l n
  = (n + positives l)%nat.
Proof.
  revert n. unfold positives.
  induction l as [|v l IH]; intro n; cbn [fold_left filter].
  - cbn. lia.
  - rewrite IH. destruct (Qltb 0 v); cbn [length]; lia.
Qed.

Lemma countPositive_positives (l : list Q) :
  NCD.countPositive l = positives l.
Proof. unfold NCD.countPositive. apply countPositive_from. Qed.

Lemma positives_rev (l : list Q) : positives (rev l) = positives l.
Proof.
  unfold positives. rewrite filter_rev, length_rev. reflexivity.
Qed.




(** ** The distribution function *)

Section Cdf.

Variable C : Collaborators.
Variable self : NCD.engine.

Lemma Qle_bool_false (x y : Q) : y < x -> Qle_bool x y = false.
Proof.
  intro H. destruct (Qle_bool x y) eqn:E; [|reflexivity].
  apply Qle_bool_iff in E. exfalso. exact (Qlt_not_le _ _ H E).
Qed.

(** Below the support, or for a degenerate engine, [cdf] is 0. *)
Lemma cdf_below (w : Q) :
  NCD.H1 self <= 0 \/ w <= NCD.H0 self -> NCD.cdf C self w = Ok (Number 0).
Proof.
  intro H. unfold NCD.cdf.
  assert (E : Qle_bool (NCD.H1 self) 0 || Qle_bool w (NCD.H0 self) = true).
  { apply orb_true_iff. destruct H as [H|H]; [left|right];
      apply Qle_bool_iff; exact H. }
  rewrite E. reflexivity.
Qed.

(** Above the support [cdf] is 1. *)
Lemma cdf_above (w : Q) :
  0 < NCD.H1 self -> NCD.H0 self < w -> NCD.H1 self <= w ->
  NCD.cdf C self w = Ok (Number 1).
Proof.
  intros P L U. unfold NCD.cdf.
  rewrite (Qle_bool_false _ _ P), (Qle_bool_false _ _ L). cbn [orb].
  assert (E : Qle_bool (NCD.H1 self - w) 0 = true)
    by (apply Qle_bool_iff; lra).
  rewrite E. reflexivity.
Qed.

(** Inside the support [cdf] goes through the chi-square terms. *)
Lemma cdf_inside (w : Q) :
  0 < NCD.H1 self -> NCD.H0 self < w -> w < NCD.H1 self ->
  NCD.cdf C self w
  = NCD.reraised (m <- NCD.termMoments self w ;; NCD.cdfOfMoments C self w m).
Proof.
  intros P L U. unfold NCD.cdf.
  rewrite (Qle_bool_false _ _ P), (Qle_bool_false _ _ L). cbn [orb].
  rewrite Qle_bool_false by lra. reflexivity.
Qed.

(** C3 (as the code has it): in the general branch without the exact
    solver, [cdf] returns the frozen distribution object built by
    [f(x, nuStarPositive, nuStarNegative)], not a number. *)
Theorem cdf_general_branch_not_a_number (w : Q) (m : NCD.moments) :
  0 < NCD.H1 self -> NCD.H0 self < w -> w < NCD.H1 self ->
  NCD.exact self = false ->
  NCD.termMoments self w = Ok m ->
  NCD.numNegative m <> 0%nat -> NCD.numPositive m <> 0%nat ->
  ~ (NCD.numNegative m = 1%nat /\ NCD.numPositive m = 1%nat) ->
  exists x dfn dfd,
    NCD.cdf C self w = Ok (FrozenF x dfn dfd) /\
    forall p, NCD.cdf C self w <> Ok (Number p).
Proof.
  intros P L U X M Nn Np Ns.
  rewrite cdf_inside by assumption. rewrite M. cbn [bind].
  unfold NCD.cdfOfMoments.
  apply Nat.eqb_neq in Nn. apply Nat.eqb_neq in Np. rewrite Nn, Np, X.
  assert (E : ((NCD.numNegative m =? 1) && (NCD.numPositive m =? 1))%nat
              = false).
  { apply andb_false_iff.
    destruct (NCD.numNegative m =? 1)%nat eqn:A; [|left; reflexivity].
    destruct (NCD.numPositive m =? 1)%nat eqn:B; [|right; reflexivity].
    apply Nat.eqb_eq in A. apply Nat.eqb_eq in B. exfalso. apply Ns.
    split; assumption. }
  rewrite E. cbn [NCD.reraised].
  do 3 eexists. split; [reflexivity|]. intros p Hp. discriminate Hp.
Qed.

(** The sibling case: the positive term central and the negative one
    noncentral; [cdf] unpacks the pair of [probf] and returns a number. *)
Lemma cdf_noncentral_negative_term (w : Q) (m : NCD.moments)
    (r : Q * fmethod) :
  0 < NCD.H1 self -> NCD.H0 self < w -> w < NCD.H1 self ->
  NCD.termMoments self w = Ok m ->
  NCD.numPositive m = 1%nat -> NCD.numNegative m = 1%nat ->
  NCD.lastPositiveNoncentrality m == 0 ->
  0 < NCD.lastNegativeNoncentrality m ->
  let Nstar := NCD.N self - NCD.ofnat (NCD.qF self) + NCD.ofnat NCD.a - 1 in
  let Fstar := w / (Nstar * (NCD.H1 self - w)) in
  probf C (1 / Fstar) 1 Nstar (NCD.lastNegativeNoncentrality m) = Ok r ->
  NCD.cdf C self w = Ok (Number (1 - fst r)).
Proof.
  intros P L U M Np Nn Z G Nstar Fstar R.
  rewrite cdf_inside by assumption. rewrite M. cbn [bind].
  unfold NCD.cdfOfMoments. rewrite Np, Nn. cbn [Nat.eqb andb].
  assert (A : Qeq_bool (NCD.lastNegativeNoncentrality m) 0 = false).
  { destruct (Qeq_bool _ 0) eqn:A; [|reflexivity].
    apply Qeq_bool_iff in A. lra. }
  rewrite A, andb_false_r.
  apply Qeq_bool_iff in Z. apply Qltb_iff in G. rewrite Z, G.
  cbn [andb]. fold Nstar. fold Fstar. rewrite R. reflexivity.
Qed.

(** The loop keeps what every [accumulate] keeps. *)
Lemma while_terms_invariant (P : NCD.moments -> Prop) sStar evs mz b0 :
  (forall acc lambda_ nu delta,
      P acc -> P (NCD.accumulate acc lambda_ nu delta)) ->
  forall fuel k acc m,
    P acc ->
    NCD.while_terms sStar evs mz b0 fuel k acc = Ok m -> P m.
Proof.
  intro Step. induction fuel as [|fuel IH]; intros k acc m Pa W.
  - cbn in W. injection W as <-. exact Pa.
  - cbn [NCD.while_terms] in W.
    destruct (k <? sStar)%nat.
    + step_as W ev. step_as W delta.
      apply (IH _ _ _ (Step _ _ _ _ Pa) W).
    + injection W as <-. exact Pa.
Qed.

(** Inside the support the base term is central with a positive weight:
    when a single term has positive weight, it is the base term, and its
    noncentrality is 0. *)
Lemma single_positive_term_is_central (w : Q) (m : NCD.moments) :
  0 < NCD.H1 self -> w < NCD.H1 self ->
  NCD.termMoments self w = Ok m ->
  (1 <= NCD.numPositive m)%nat /\
  (NCD.numPositive m = 1%nat -> NCD.lastPositiveNoncentrality m = 0).
Proof.
  intros P U M. unfold NCD.termMoments in M.
  revert M.
  apply (while_terms_invariant
           (fun m => (1 <= NCD.numPositive m)%nat /\
                     (NCD.numPositive m = 1%nat ->
                      NCD.lastPositiveNoncentrality m = 0))).
  - intros acc lambda_ nu delta [A B]. unfold NCD.accumulate.
    destruct (Qltb 0 lambda_); [|destruct (Qltb lambda_ 0)];
      cbn [NCD.numPositive NCD.lastPositiveNoncentrality];
      split; try assumption; try lia.
  - unfold NCD.accumulate.
    assert (B : Qltb 0 (1 - w / NCD.H1 self) = true).
    { apply Qltb_iff.
      assert (D : w / NCD.H1 self < 1).
      { apply Qlt_shift_div_r; [exact P | lra]. }
      lra. }
    rewrite B. cbn. split; [lia | reflexivity].
Qed.


(** A bisection whose function raises at the first midpoint raises. *)
Lemma bisect_loop_raises (f : Q -> result Q) (fuel : nat) (xa dm fa : Q)
    (e : exn) :
  f (xa + dm * (1 # 2)) = Raise e ->
  bisect_loop f (Datatypes.S fuel) xa dm fa = Raise e.
Proof. intro H. cbn [bisect_loop]. rewrite H. reflexivity. Qed.

(** [inverseCDF] on a degenerate engine. *)
Lemma inverseCDF_degenerate (q : Q) :
  NCD.H1 self <= 0 -> NCD.inverseCDF C self q = Ok 0.
Proof.
  intro H. unfold NCD.inverseCDF. apply Qle_bool_iff in H. rewrite H.
  reflexivity.
Qed.

(** C6 (as the code has it): for a quantile in (0,1) and [H1 > 0], when
    [cdf] at the first midpoint of the bisection returns something that is
    not a number, the subtraction [quantile - cdf(n)] raises, and
    [inverseCDF] raises instead of returning a point. *)
Theorem inverseCDF_raises_off_numbers (q : Q) (v : pyvalue) :
  0 < q -> q < 1 -> 0 < NCD.H1 self ->
  NCD.cdf C self (NCD.H0 self + (NCD.H1 self - NCD.H0 self) * (1 # 2))
  = Ok v ->
  (forall p, v <> Number p) ->
  exists e, NCD.inverseCDF C self q = Raise e.
Proof.
  intros Q0 Q1 P V NV. unfold NCD.inverseCDF.
  rewrite (Qle_bool_false _ _ P). unfold bisect.
  assert (FA : NCD.quantFunc C self q (NCD.H0 self) = Ok (q - 0)).
  { unfold NCD.quantFunc. rewrite cdf_below by (right; apply Qle_refl).
    reflexivity. }
  rewrite FA. cbn [bind].
  destruct (NCD.quantFunc C self q (NCD.H1 self)) as [fb|e] eqn:FB;
    cbn [bind]; [|eexists; reflexivity].
  destruct (Qltb 0 ((q - 0) * fb)); [eexists; reflexivity|].
  assert (Z : Qeq_bool (q - 0) 0 = false).
  { destruct (Qeq_bool (q - 0) 0) eqn:Z; [|reflexivity].
    apply Qeq_bool_iff in Z. lra. }
  rewrite Z.
  assert (Zb : Qeq_bool fb 0 = false).
  { destruct (Qeq_bool fb 0) eqn:Zb; [|reflexivity].
    apply Qeq_bool_iff in Zb. exfalso.
    unfold NCD.quantFunc in FB.
    destruct (Qlt_le_dec (NCD.H0 self) (NCD.H1 self)) as [Lt|Le].
    - rewrite cdf_above in FB by (try assumption; apply Qle_refl).
      cbn [bind] in FB. injection FB as <-. lra.
    - rewrite cdf_below in FB by (right; exact Le).
      cbn [bind] in FB. injection FB as <-. lra. }
  rewrite Zb. unfold maxiter.
  assert (R : NCD.quantFunc C self q
                (NCD.H0 self + (NCD.H1 self - NCD.H0 self) * (1 # 2))
              = Raise (TypeError "unsupported operand type(s) for -")).
  { unfold NCD.quantFunc. rewrite V. cbn [bind].
    destruct v as [p| |]; [exfalso; exact (NV p eq_refl)| |]; reflexivity. }
  rewrite (bisect_loop_raises _ _ _ _ _ _ R). eexists. reflexivity.
Qed.

End Cdf.

(** On the identity design [cdf(3/2)] has one positive and two negative
    terms and takes the general branch. *)
Lemma cdf_general_branch_not_a_number_witness :
  exists st m,
    init_identity2 (identity 2) false = Ok st /\
    NCD.termMoments st (3 # 2) = Ok m /\
    NCD.numPositive m = 1%nat /\ NCD.numNegative m = 2%nat /\
    exists x dfn dfd,
      NCD.cdf lib st (3 # 2) = Ok (FrozenF x dfn dfd) /\
      forall p, NCD.cdf lib st (3 # 2) <> Ok (Number p).
Proof.
  eexists. eexists.
  split; [vm_compute; reflexivity|].
  split; [vm_compute; reflexivity|].
  split; [reflexivity|]. split; [reflexivity|].
  eapply (cdf_general_branch_not_a_number lib _ (3 # 2)).
  - reflexivity.
  - reflexivity.
  - reflexivity.
  - reflexivity.
  - vm_compute. reflexivity.
  - cbn. lia.
  - cbn. lia.
  - cbn. lia.
Defined.


(** On the identity design the first midpoint of the bisection is [3/2],
    where [cdf] returns a frozen distribution. *)
Lemma inverseCDF_raises_off_numbers_witness :
  exists st v,
    init_identity2 (identity 2) false = Ok st /\
    0 < 1 # 2 /\ 1 # 2 < 1 /\ 0 < NCD.H1 st /\
    NCD.cdf lib st (NCD.H0 st + (NCD.H1 st - NCD.H0 st) * (1 # 2)) = Ok v /\
    (forall p, v <> Number p) /\
    exists e, NCD.inverseCDF lib st (1 # 2) = Raise e.
Proof.
  eexists. eexists.
  split; [vm_compute; reflexivity|].
  split; [reflexivity|]. split; [reflexivity|]. split; [reflexivity|].
  split; [vm_compute; reflexivity|].
  split; [intros p Hp; discriminate Hp|].
  eapply (inverseCDF_raises_off_numbers lib _ (1 # 2)).
  - reflexivity.
  - reflexivity.
  - reflexivity.
  - vm_compute. reflexivity.
  - intros p Hp. discriminate Hp.
Defined.

(** The same run, evaluated: [inverseCDF(1/2)] ends in the [TypeError] of
    the subtraction. *)
Example inverseCDF_identity_design :
  exists st,
    init_identity2 (identity 2) false = Ok st /\
    NCD.inverseCDF lib st (1 # 2)
    = Raise (ExceptionFrom (TypeError "unsupported operand type(s) for -")).
Proof.
  eexists. split; [vm_compute; reflexivity|]. vm_compute. reflexivity.
Qed.

(** On the scalar design with [CGaussian = 1] the negative term is
    noncentral and [cdf] is a number. *)
Example cdf_scalar_design :
  exists st p,
    init_scalar 1 = Ok st /\ NCD.cdf lib st 2 = Ok (Number p).
Proof.
  eexists. eexists. split; [vm_compute; reflexivity|].
  vm_compute. reflexivity.
Qed.

(** ** Finite sums and products of matrices *)

Lemma sumn_ext (n : nat) (f g : nat -> Q) :
  (forall i, (i < n)%nat -> f i == g i) -> sumn n f == sumn n g.
Proof.
  induction n as [|n IH]; intro H; cbn [sumn]; [reflexivity|].
  rewrite IH by (intros i Hi; apply H; lia).
  rewrite (H n) by lia. reflexivity.
Qed.

#[local] Instance sumn_Proper (n : nat) :
  Proper (pointwise_relation nat Qeq ==> Qeq) (sumn n).
Proof. intros f g H. apply sumn_ext. intros i _. apply H. Qed.

Lemma sumn_zero (n : nat) : sumn n (fun _ => 0) == 0.
Proof.
  induction n as [|n IH]; cbn [sumn]; [reflexivity|]. rewrite IH. ring.
Qed.

Lemma sumn_add (n : nat) (f g : nat -> Q) :
  sumn n (fun i => f i + g i) == sumn n f + sumn n g.
Proof. induction n as [|n IH]; cbn [sumn]; [ring|]. rewrite IH. ring. Qed.

Lemma sumn_scal_l (n : nat) (c : Q) (f : nat -> Q) :
  sumn n (fun i => c * f i) == c * sumn n f.
Proof. induction n as [|n IH]; cbn [sumn]; [ring|]. rewrite IH. ring. Qed.

Lemma sumn_scal_r (n : nat) (c : Q) (f : nat -> Q) :
  sumn n (fun i => f i * c) == sumn n f * c.
Proof. induction n as [|n IH]; cbn [sumn]; [ring|]. rewrite IH. ring. Qed.

Lemma sumn_swap (n m : nat) (f : nat -> nat -> Q) :
  sumn n (fun i => sumn m (fun j => f i j))
  == sumn m (fun j => sumn n (fun i => f i j)).
Proof.
  induction n as [|n IH]; cbn [sumn].
  - rewrite sumn_zero. reflexivity.
  - rewrite IH, <- sumn_add. reflexivity.
Qed.


Lemma Qsquare_nonneg (x : Q) : 0 <= x * x.
Proof.
  destruct (Qlt_le_dec x 0) as [N|P].
  - setoid_replace (x * x) with ((- x) * (- x)) by ring.
    apply Qmult_le_0_compat; lra.
  - apply Qmult_le_0_compat; assumption.
Qed.

Lemma Qsquare_pos (x : Q) : ~ x == 0 -> 0 < x * x.
Proof.
  intro H. destruct (Qlt_le_dec x 0) as [N|P].
  - setoid_replace (x * x) with ((- x) * (- x)) by ring.
    apply Qmult_lt_0_compat; lra.
  - assert (0 < x).
    { apply Qle_lteq in P. destruct P as [P|P]; [exact P|].
      exfalso. apply H. symmetry. exact P. }
    apply Qmult_lt_0_compat; assumption.
Qed.


#[local] Instance feq_Equivalence : Equivalence feq.
Proof.
  split.
  - intros A i j. reflexivity.
  - intros A B H i j. symmetry. apply H.
  - intros A B D H1 H2 i j. rewrite (H1 i j). apply H2.
Qed.

#[local] Instance fmul_Proper (n : nat) :
  Proper (feq ==> feq ==> feq) (fmul n).
Proof.
  intros A A' HA B B' HB i j. unfold fmul. apply sumn_ext. intros k _.
  rewrite (HA i k), (HB k j). reflexivity.
Qed.

#[local] Instance ft_Proper : Proper (feq ==> feq) ft.
Proof. intros A A' HA i j. unfold ft. apply HA. Qed.

#[local] Instance ftrace_Proper (n : nat) : Proper (feq ==> Qeq) (ftrace n).
Proof.
  intros A A' HA. unfold ftrace. apply sumn_ext. intros i _. apply HA.
Qed.

Lemma fmul_assoc (n m : nat) (A B D : nat -> nat -> Q) :
  feq (fmul m (fmul n A B) D) (fmul n A (fmul m B D)).
Proof.
  intros i j. unfold fmul.
  transitivity (sumn m (fun k => sumn n (fun l => A i l * B l k * D k j))).
  { apply sumn_ext. intros k _. rewrite <- sumn_scal_r. reflexivity. }
  rewrite sumn_swap. apply sumn_ext. intros l _.
  rewrite <- sumn_scal_l. apply sumn_ext. intros k _. ring.
Qed.

Lemma ft_fmul (n : nat) (A B : nat -> nat -> Q) :
  feq (ft (fmul n A B)) (fmul n (ft B) (ft A)).
Proof.
  intros i j. unfold ft, fmul. apply sumn_ext. intros k _. ring.
Qed.

Lemma ft_ft (A : nat -> nat -> Q) : feq (ft (ft A)) A.
Proof. intros i j. reflexivity. Qed.

Lemma ftrace_cyclic (n m : nat) (A B : nat -> nat -> Q) :
  ftrace n (fmul m A B) == ftrace m (fmul n B A).
Proof.
  unfold ftrace, fmul. rewrite sumn_swap. apply sumn_ext. intros k _.
  apply sumn_ext. intros i _. ring.
Qed.

Lemma fmul_ext (n : nat) (A A' B B' : nat -> nat -> Q) (i j : nat) :
  (forall k, (k < n)%nat -> A i k == A' i k) ->
  (forall k, (k < n)%nat -> B k j == B' k j) ->
  fmul n A B i j == fmul n A' B' i j.
Proof.
  intros HA HB. unfold fmul. apply sumn_ext. intros k Hk.
  rewrite (HA k Hk), (HB k Hk). reflexivity.
Qed.

Lemma matmul_Ok (A B M : matrix) :
  matmul A B = Ok M ->
  shape1 A = shape0 B /\ shape0 M = shape0 A /\ shape1 M = shape1 B /\
  forall i j, (i < shape0 A)%nat -> (j < shape1 B)%nat ->
    get M i j = fmul (shape1 A) (get A) (get B) i j.
Proof.
  unfold matmul. destruct (shape1 A =? shape0 B)%nat eqn:E; [|discriminate].
  intro H. injection H as <-. apply Nat.eqb_eq in E.
  split; [exact E|]. split; [reflexivity|]. split; [reflexivity|].
  intros i j Hi Hj. rewrite get_build by assumption. reflexivity.
Qed.

Lemma get_transpose (m : matrix) (i j : nat) :
  (i < shape1 m)%nat -> (j < shape0 m)%nat ->
  get (transpose m) i j = get m j i.
Proof.
  intros Hi Hj. unfold transpose. rewrite get_build by assumption.
  reflexivity.
Qed.

(** ** The quadratic forms behind [H1] and [S] *)

Section Quadratic.

Variables theta T1 L W h1 h2 Hm s1 s2 s3 s4 : matrix.

Hypothesis Eh1 : matmul (transpose theta) T1 = Ok h1.
Hypothesis Eh2 : matmul h1 theta = Ok h2.
Hypothesis EHm : matmul h2 W = Ok Hm.
Hypothesis Es1 : matmul (transpose L) theta = Ok s1.
Hypothesis Es2 : matmul s1 W = Ok s2.
Hypothesis Es3 : matmul s2 (transpose theta) = Ok s3.
Hypothesis Es4 : matmul s3 L = Ok s4.
Hypothesis Chol : cholesky_factor T1 L.

Lemma run_shapes :
  shape0 T1 = shape0 theta /\ shape1 T1 = shape0 theta /\
  shape0 W = shape1 theta /\ shape1 W = shape1 theta /\
  shape0 L = shape0 theta /\
  shape0 Hm = shape1 theta /\ shape1 Hm = shape1 theta /\
  shape0 s4 = shape1 L /\ shape1 s4 = shape1 L.
Proof.
  destruct (matmul_Ok _ _ _ Eh1) as (A1 & A2 & A3 & _).
  destruct (matmul_Ok _ _ _ Eh2) as (B1 & B2 & B3 & _).
  destruct (matmul_Ok _ _ _ EHm) as (C1 & C2 & C3 & _).
  destruct (matmul_Ok _ _ _ Es1) as (D1 & D2 & D3 & _).
  destruct (matmul_Ok _ _ _ Es2) as (F1 & F2 & F3 & _).
  destruct (matmul_Ok _ _ _ Es3) as (G1 & G2 & G3 & _).
  destruct (matmul_Ok _ _ _ Es4) as (I1 & I2 & I3 & _).
  unfold transpose in *. rewrite ?shape0_build, ?shape1_build in *.
  repeat split; congruence.
Qed.

Lemma s1_entries (r i : nat) :
  (r < shape1 L)%nat -> (i < shape1 theta)%nat ->
  get s1 r i == (rowsY theta L) r i.
Proof.
  intros Hr Hi.
  destruct run_shapes as (_ & _ & _ & _ & SL & _).
  destruct (matmul_Ok _ _ _ Es1) as (_ & _ & _ & E).
  unfold transpose in E at 1 2. rewrite shape0_build, shape1_build in E.
  fold (transpose L) in E.
  rewrite E by assumption. unfold rowsY. rewrite SL.
  apply fmul_ext; intros k Hk; [|reflexivity].
  rewrite get_transpose by lia. reflexivity.
Qed.

Lemma s4_entries (r r' : nat) :
  (r < shape1 L)%nat -> (r' < shape1 L)%nat ->
  get s4 r r' == (formY theta L W) r r'.
Proof.
  intros Hr Hr'.
  destruct run_shapes as (ST0 & ST1 & SW0 & SW1 & SL & _).
  destruct (matmul_Ok _ _ _ Es1) as (_ & S10 & S11 & _).
  destruct (matmul_Ok _ _ _ Es2) as (_ & S20 & S21 & E2).
  destruct (matmul_Ok _ _ _ Es3) as (_ & S30 & S31 & E3).
  destruct (matmul_Ok _ _ _ Es4) as (_ & _ & _ & E4).
  unfold transpose in S10, S11, S31, E3.
  rewrite ?shape0_build, ?shape1_build in *.
  fold (transpose theta) in E3.
  rewrite E4 by lia.
  assert (X : fmul (shape1 s3) (get s3) (get L) r r'
              == fmul (shape0 theta)
                      (fmul (shape1 theta)
                            (fmul (shape1 theta) (rowsY theta L) (get W))
                            (ft (get theta)))
                      (get L) r r').
  { rewrite S31. apply fmul_ext; intros p Hp; [|reflexivity].
    rewrite E3 by lia. rewrite S21, SW1.
    apply fmul_ext; intros k Hk.
    - rewrite E2 by lia. rewrite S11.
      apply fmul_ext; intros i Hi; [|reflexivity].
      apply s1_entries; assumption.
    - rewrite get_transpose by lia. reflexivity. }
  rewrite X. unfold formY.
  rewrite (fmul_assoc _ _ _ _ _ r r').
  apply fmul_ext; intros k Hk; [reflexivity|].
  unfold rowsY, fmul, ft. apply sumn_ext. intros q _. ring.
Qed.

Lemma Hm_entries (i j : nat) :
  (i < shape1 theta)%nat -> (j < shape1 theta)%nat ->
  get Hm i j
  == fmul (shape1 theta)
          (fmul (shape0 theta)
                (fmul (shape0 theta) (ft (get theta))
                      (fmul (shape1 L) (get L) (ft (get L))))
                (get theta))
          (get W) i j.
Proof.
  intros Hi Hj.
  destruct run_shapes as (ST0 & ST1 & SW0 & SW1 & SL & _).
  destruct (matmul_Ok _ _ _ Eh1) as (_ & H10 & H11 & E1).
  destruct (matmul_Ok _ _ _ Eh2) as (_ & H20 & H21 & E2).
  destruct (matmul_Ok _ _ _ EHm) as (_ & _ & _ & E3).
  unfold transpose in H10, E1.
  rewrite ?shape0_build, ?shape1_build in *.
  fold (transpose theta) in E1.
  rewrite E3 by lia. rewrite H21.
  apply fmul_ext; intros k Hk; [|reflexivity].
  rewrite E2 by lia. rewrite H11, ST1.
  apply fmul_ext; intros p Hp; [|reflexivity].
  rewrite E1 by lia.
  apply fmul_ext; intros q Hq.
  - rewrite get_transpose by lia. reflexivity.
  - apply Chol; lia.
Qed.

(** [H1] is the trace of the matrix of which [S] is a multiple. *)
Lemma H1_is_trace : trace Hm == ftrace (shape1 L) (formY theta L W).
Proof.
  destruct run_shapes as (_ & _ & _ & _ & _ & SH0 & SH1 & _).
  unfold trace. rewrite SH0, SH1, Nat.min_id.
  transitivity
    (ftrace (shape1 theta)
       (fmul (shape1 theta)
          (fmul (shape0 theta)
             (fmul (shape0 theta) (ft (get theta))
                (fmul (shape1 L) (get L) (ft (get L))))
             (get theta))
          (get W))).
  { unfold ftrace. apply sumn_ext. intros i Hi. apply Hm_entries; assumption. }
  assert (X : feq (fmul (shape0 theta)
                     (fmul (shape0 theta) (ft (get theta))
                        (fmul (shape1 L) (get L) (ft (get L))))
                     (get theta))
                  (fmul (shape1 L) (ft (rowsY theta L)) (rowsY theta L))).
  { rewrite <- (fmul_assoc (shape0 theta) (shape1 L)
                  (ft (get theta)) (get L) (ft (get L))).
    rewrite (fmul_assoc (shape1 L) (shape0 theta)).
    assert (Y1 : feq (fmul (shape0 theta) (ft (get theta)) (get L))
                     (ft (rowsY theta L))).
    { unfold rowsY. rewrite ft_fmul. rewrite ft_ft. reflexivity. }
    rewrite Y1. reflexivity. }
  rewrite X. rewrite fmul_assoc. apply ftrace_cyclic.
Qed.





End Quadratic.

(** ** Positive semidefinite inverse forms *)










(** ** The lower bound [H0] *)

Lemma lowerBound_nonneg (H1 : Q) (evs : list Q) : 0 <= NCD.lowerBound H1 evs.
Proof.
  unfold NCD.lowerBound.
  destruct (Qle_bool _ 0) eqn:E; [apply Qle_refl|].
  apply Qlt_le_weak. apply Qnot_le_lt. intro L.
  apply Qle_bool_iff in L. congruence.
Qed.


Ltac index_cases i H :=
  destruct i as [|[|i]]; [| |exfalso; cbn in H; lia].



(** ** [forceSymmetric] beyond square matrices *)

Lemma get_build_outside (r c : nat) (f : nat -> nat -> Q) (i j : nat) :
  (r <= i)%nat \/ (c <= j)%nat -> get (build r c f) i j = 0.
Proof.
  intro H. unfold get, build. cbn [data].
  destruct (Nat.lt_ge_cases i r) as [Hi|Hi].
  - destruct H as [H|H]; [lia|].
    rewrite (nth_indep _ [] (map (f 0%nat) (seq 0 c)))
      by (rewrite length_map, length_seq; exact Hi).
    rewrite (map_nth (fun i => map (f i) (seq 0 c)) (seq 0 r) 0%nat i).
    apply nth_overflow. rewrite length_map, length_seq. exact H.
  - rewrite (nth_overflow (map _ (seq 0 r)))
      by (rewrite length_map, length_seq; exact Hi).
    destruct j; reflexivity.
Qed.

(** X1: [forceSymmetric] is idempotent on square matrices: a matrix that it
    returned is returned unchanged. *)
Theorem forceSymmetric_idempotent (m r : matrix) :
  square m ->
  NCD.forceSymmetric m = Ok r -> NCD.forceSymmetric r = Ok r.
Proof.
  intros Sq F. rewrite (forceSymmetric_square m Sq) in F.
  injection F as <-.
  rewrite forceSymmetric_square by reflexivity.
  rewrite shape0_build. f_equal. apply build_ext. intros i j Hi Hj.
  unfold symmetrized at 1.
  destruct (j <=? i)%nat eqn:A; destruct (i + 1 <=? j)%nat eqn:B;
    try apply Nat.leb_le in A; try apply Nat.leb_gt in A;
    try apply Nat.leb_le in B; try apply Nat.leb_gt in B; try lia.
  - rewrite Qplus_zero_r. apply get_build; assumption.
  - rewrite Qplus_zero_l. rewrite get_build by assumption.
    apply symmetrized_sym.
Qed.

Lemma forceSymmetric_idempotent_witness :
  square (DiagLib.diag [1; 2]) /\
  exists r,
    NCD.forceSymmetric (DiagLib.diag [1; 2]) = Ok r /\
    NCD.forceSymmetric r = Ok r.
Proof.
  split; [reflexivity|]. eexists.
  assert (F : NCD.forceSymmetric (DiagLib.diag [1; 2])
              = Ok (Matrix 2 2 [[1; 0]; [0; 2]])) by reflexivity.
  split; [exact F|].
  apply (forceSymmetric_idempotent (DiagLib.diag [1; 2])); [reflexivity|].
  exact F.
Defined.

(** X2: On a matrix that is not square, [forceSymmetric] raises the
    [ValueError] of numpy's addition, except when one of the two
    dimensions is 1: then the two triangles broadcast against each other
    and a square matrix of the other dimension is returned. *)
Theorem forceSymmetric_not_square (m : matrix) :
  shape0 m <> shape1 m ->
  (shape0 m <> 1%nat /\ shape1 m <> 1%nat ->
   NCD.forceSymmetric m = Raise ValueError) /\
  (shape0 m = 1%nat ->
   exists r, NCD.forceSymmetric m = Ok r /\
             shape0 r = shape1 m /\ shape1 r = shape1 m) /\
  (shape1 m = 1%nat ->
   exists r, NCD.forceSymmetric m = Ok r /\
             shape0 r = shape0 m /\ shape1 r = shape0 m).
Proof.
  intro Ne. unfold NCD.forceSymmetric, madd, tril, triu, transpose.
  rewrite !shape0_build, !shape1_build. unfold broadcast.
  destruct (shape0 m =? shape1 m)%nat eqn:E0;
    [apply Nat.eqb_eq in E0; contradiction|].
  rewrite (Nat.eqb_sym (shape1 m) (shape0 m)), E0.
  split; [|split].
  - intros [A B].
    apply Nat.eqb_neq in A. apply Nat.eqb_neq in B. rewrite A, B.
    reflexivity.
  - intro A.
    destruct (shape1 m =? 1)%nat eqn:B;
      [apply Nat.eqb_eq in B; congruence|].
    rewrite A. cbn [Nat.eqb].
    eexists. split; [reflexivity|].
    rewrite shape0_build, shape1_build. split; reflexivity.
  - intro A.
    destruct (shape0 m =? 1)%nat eqn:B;
      [apply Nat.eqb_eq in B; congruence|].
    rewrite A. cbn [Nat.eqb].
    eexists. split; [reflexivity|].
    rewrite shape0_build, shape1_build. split; reflexivity.
Qed.

Lemma forceSymmetric_not_square_witness :
  shape0 (column [1; 2; 3]) <> shape1 (column [1; 2; 3]) /\
  exists r, NCD.forceSymmetric (column [1; 2; 3]) = Ok r /\
            shape0 r = 3%nat /\ shape1 r = 3%nat.
Proof.
  assert (Ne : shape0 (column [1; 2; 3]) <> shape1 (column [1; 2; 3]))
    by (cbn; lia).
  split; [exact Ne|].
  destruct (forceSymmetric_not_square (column [1; 2; 3]) Ne) as (_ & _ & B).
  apply B. reflexivity.
Defined.

(** X3: A row vector with at least two entries is not rejected: what comes
    back is a square matrix whose first column repeats the first entry
    and whose other columns are zero, which is not symmetric unless that
    entry is zero. *)
Theorem forceSymmetric_row_vector (m : matrix) :
  shape0 m = 1%nat -> (2 <= shape1 m)%nat ->
  exists r,
    NCD.forceSymmetric m = Ok r /\
    shape0 r = shape1 m /\ shape1 r = shape1 m /\
    (forall i j, (i < shape1 m)%nat -> (j < shape1 m)%nat ->
       get r i j = if (j =? 0)%nat then get m 0 0 else 0) /\
    (~ get m 0 0 == 0 -> ~ get r 1 0 == get r 0 1).
Proof.
  intros R0 R1.
  assert (F : NCD.forceSymmetric m
              = Ok (build (shape1 m) (shape1 m) (fun i j =>
                      get (tril m) (bidx 1 i) (bidx (shape1 m) j)
                      + get (triu (transpose m) 1)
                            (bidx (shape1 m) i) (bidx 1 j)))).
  { assert (S0 : shape0 (tril m) = 1%nat) by exact R0.
    assert (S1 : shape1 (tril m) = shape1 m) by reflexivity.
    assert (T0 : shape0 (triu (transpose m) 1) = shape1 m) by reflexivity.
    assert (T1 : shape1 (triu (transpose m) 1) = 1%nat) by exact R0.
    assert (A : (1 =? shape1 m)%nat = false) by (apply Nat.eqb_neq; lia).
    assert (B : (shape1 m =? 1)%nat = false) by (apply Nat.eqb_neq; lia).
    unfold NCD.forceSymmetric, madd. rewrite S0, S1, T0, T1.
    unfold broadcast. rewrite A, B. cbn [Nat.eqb]. reflexivity. }
  assert (Entries : forall i j, (i < shape1 m)%nat -> (j < shape1 m)%nat ->
            get (build (shape1 m) (shape1 m) (fun i j =>
                   get (tril m) (bidx 1 i) (bidx (shape1 m) j)
                   + get (triu (transpose m) 1)
                         (bidx (shape1 m) i) (bidx 1 j))) i j
            = if (j =? 0)%nat then get m 0 0 else 0).
  { intros i j Hi Hj. rewrite get_build by assumption.
    rewrite (bidx_lt (shape1 m) j Hj), (bidx_lt (shape1 m) i Hi).
    unfold bidx. cbn [Nat.eqb].
    unfold tril, triu, transpose.
    rewrite shape0_build, shape1_build, R0.
    rewrite (get_build 1 (shape1 m)) by lia.
    rewrite (get_build (shape1 m) 1) by lia.
    assert (U : (i + 1 <=? 0)%nat = false) by (apply Nat.leb_gt; lia).
    rewrite U, Qplus_zero_r.
    destruct j; reflexivity. }
  eexists. split; [exact F|].
  rewrite shape0_build, shape1_build.
  split; [reflexivity|]. split; [reflexivity|]. split; [exact Entries|].
  intros NZ. rewrite !Entries by lia. cbn [Nat.eqb]. exact NZ.
Qed.

Lemma forceSymmetric_row_vector_witness :
  exists r,
    NCD.forceSymmetric (transpose (column [5; 7])) = Ok r /\
    shape0 r = 2%nat /\ shape1 r = 2%nat /\
    get r 1 0 == 5 /\ get r 0 1 == 0.
Proof.
  destruct (forceSymmetric_row_vector (transpose (column [5; 7])))
    as (r & F & S0 & S1 & E & _).
  - reflexivity.
  - cbn. lia.
  - exists r. split; [exact F|]. split; [exact S0|]. split; [exact S1|].
    rewrite !E by (cbn; lia). split; reflexivity.
Defined.

(** ** The state of a constructed engine *)

Ltac step_eq H x E :=
  match type of H with
  | bind ?r _ = Ok _ =>
      destruct r as [x|] eqn:E; cbn [bind] in H; [|discriminate H]
  end.

(** What [initialize] stored beside the values of [initialize_Ok]: the
    squared matrix [mzSq] and its shape, and the error list. *)
Lemma initialize_state (C : Collaborators) test FEssence perGroupN Cfixed
    CGaussian thetaDiff sigmaStar stddevG exact (st : NCD.engine) :
  NCD.initialize C test FEssence perGroupN Cfixed CGaussian thetaDiff
                 sigmaStar stddevG exact = Ok st ->
  exists evs vecs z rG,
    linalg_eig C (NCD.S st) = Ok (evs, vecs) /\
    NCD.sEigenValues st = rev evs /\
    NCD.sStar st = NCD.countPositive (rev evs) /\
    NCD.H0 st = NCD.lowerBound (NCD.H1 st) (rev evs) /\
    NCD.mzSq st = NCD.squareEntries (scale z rG) /\
    shape0 z = shape1 vecs /\ shape1 z = shape1 CGaussian /\
    NCD.N st = NCD.ofnat (shape0 FEssence) * perGroupN /\
    NCD.qF st = shape1 FEssence /\
    NCD.errors st = fst (NCD.getSigmaStarInverse C [] sigmaStar test).
Proof.
  intro H. unfold NCD.initialize in H.
  step_as H gram. step_as H FtFinverse. step_as H p1. step_as H rN.
  step_as H PPt. step_as H PPtInverse. step_as H T1. step_as H FT1.
  destruct (NCD.getSigmaStarInverse C [] sigmaStar test) as [errs inverse]
    eqn:G.
  step_as H W. step_as H h1. step_as H h2. step_as H Hm.
  step_as H s1. step_as H s2. step_as H s3. step_as H s4.
  destruct (Qeq_bool (trace Hm) 0 && negb (is_empty s4)) eqn:Z;
    cbn [bind] in H.
  { discriminate H. }
  step_eq H eigen E. destruct eigen as [evs vecs]. cbn [fst snd] in H.
  step_eq H z1 Z1. step_eq H z2 Z2. step_as H rG.
  injection H as <-.
  exists evs, vecs, z2, rG.
  cbn [NCD.S NCD.sEigenValues NCD.sStar NCD.H0 NCD.H1 NCD.mzSq NCD.N NCD.qF
       NCD.errors fst].
  apply matmul_Ok in Z1. destruct Z1 as (_ & Z1 & _).
  apply matmul_Ok in Z2. destruct Z2 as (_ & Z2 & Z2' & _).
  repeat split; try reflexivity; try assumption.
  rewrite Z2, Z1. reflexivity.
Qed.

Lemma positives_le_length (l : list Q) : (positives l <= length l)%nat.
Proof. unfold positives. apply filter_length_le. Qed.

(** X4: Invariants of every constructed engine, whatever the inputs and the
    library: [H0] is not negative, [sStar] does not exceed the number of
    stored eigenvalues, no entry of [mzSq] is negative, [mzSq] has the
    columns of [CGaussian], and [N] and [qF] are the total sample size and
    the number of columns of the design essence. *)
Theorem engine_invariants (C : Collaborators) test FEssence perGroupN Cfixed
    CGaussian thetaDiff sigmaStar stddevG exact (st : NCD.engine) :
  NCD.initialize C test FEssence perGroupN Cfixed CGaussian thetaDiff
                 sigmaStar stddevG exact = Ok st ->
  0 <= NCD.H0 st /\
  (NCD.sStar st <= length (NCD.sEigenValues st))%nat /\
  (forall i j, 0 <= get (NCD.mzSq st) i j) /\
  shape1 (NCD.mzSq st) = shape1 CGaussian /\
  NCD.N st = NCD.ofnat (shape0 FEssence) * perGroupN /\
  NCD.qF st = shape1 FEssence.
Proof.
  intro I. apply initialize_state in I.
  destruct I as (evs & vecs & z & rG & _ & Ev & St & H0 & Mz & _ & Z1 & N
                 & qF & _).
  split; [rewrite H0; apply lowerBound_nonneg|].
  split; [rewrite St, Ev, countPositive_positives; apply positives_le_length|].
  split.
  - intros i j. rewrite Mz. unfold NCD.squareEntries.
    destruct (Nat.lt_ge_cases i (shape0 (scale z rG))) as [Hi|Hi];
      [destruct (Nat.lt_ge_cases j (shape1 (scale z rG))) as [Hj|Hj]|].
    + rewrite get_build by assumption. apply Qsquare_nonneg.
    + rewrite get_build_outside by (right; exact Hj). apply Qle_refl.
    + rewrite get_build_outside by (left; exact Hi). apply Qle_refl.
  - split; [rewrite Mz; exact Z1|]. split; [exact N | exact qF].
Qed.

Lemma engine_invariants_witness :
  exists st,
    init_identity2 (DiagLib.diag [2; -1]) false = Ok st /\
    0 <= NCD.H0 st /\
    (NCD.sStar st <= length (NCD.sEigenValues st))%nat /\
    (forall i j, 0 <= get (NCD.mzSq st) i j) /\
    shape1 (NCD.mzSq st) = 1%nat /\
    NCD.N st = NCD.ofnat 2 * 1 /\
    NCD.qF st = 2%nat.
Proof.
  eexists. split; [vm_compute; reflexivity|].
  eapply (engine_invariants lib HLT (identity 2) 1 (identity 2)
            (column [1; 1]) (identity 2) (DiagLib.diag [2; -1]) 1 false).
  vm_compute. reflexivity.
Defined.

Lemma getSigmaStarInverse_errors (C : Collaborators) sigma test errs W :
  NCD.getSigmaStarInverse C [] sigma test = (errs, Ok W) ->
  exists evs,
    linalg_eigvals C sigma = Ok evs /\
    errs = if forallb (fun val => Qltb 0 val) evs then []
           else [NCD.ERR_NOT_POSITIVE_DEFINITE].
Proof.
  unfold NCD.getSigmaStarInverse, NCD.isPositiveDefinite.
  destruct (negb (shape0 sigma =? shape1 sigma)%nat);
    [intro H; discriminate H|].
  destruct (linalg_eigvals C sigma) as [evs|]; cbn [bind];
    [|intro H; discriminate H].
  intro H. exists evs. split; [reflexivity|].
  destruct (forallb (fun val => Qltb 0 val) evs); cbn [negb app] in H;
    destruct (test_eqb test HLT || truthy (HLT_value C));
    injection H as <- _; reflexivity.
Qed.

(** X5: The error list of a constructed engine tells whether [sigma_star]
    passed the check: it is empty exactly when every eigenvalue that the
    library reported for [sigma_star] is positive, and otherwise holds the
    one entry [ERR_NOT_POSITIVE_DEFINITE]. *)
Theorem errors_tell_positive_definite (C : Collaborators) test FEssence
    perGroupN Cfixed CGaussian thetaDiff sigmaStar stddevG exact
    (st : NCD.engine) :
  NCD.initialize C test FEssence perGroupN Cfixed CGaussian thetaDiff
                 sigmaStar stddevG exact = Ok st ->
  exists evs,
    linalg_eigvals C sigmaStar = Ok evs /\
    (NCD.errors st = [] <-> forall v, In v evs -> 0 < v) /\
    (NCD.errors st = [] \/
     NCD.errors st = [NCD.ERR_NOT_POSITIVE_DEFINITE]).
Proof.
  intro I. apply initialize_Ok in I.
  destruct I as (T1 & FT1 & errs & W & h1 & h2 & Hm & s1 & s2 & s3 & s4
                 & evs & vecs & mz & _ & G & _ & _ & _ & _ & _ & _ & _ & _
                 & _ & ->).
  cbn [NCD.errors].
  destruct (getSigmaStarInverse_errors _ _ _ _ _ G) as (l & E & ->).
  exists l. split; [exact E|].
  destruct (forallb (fun val => Qltb 0 val) l) eqn:F.
  - split; [|left; reflexivity].
    split; [|reflexivity].
    intros _ v Hv. rewrite forallb_forall in F.
    apply Qltb_iff. apply F. exact Hv.
  - split; [|right; reflexivity].
    split; [intro H; discriminate H|].
    intro P. exfalso.
    assert (T : forallb (fun val => Qltb 0 val) l = true).
    { apply forallb_forall. intros v Hv. apply Qltb_iff. apply P. exact Hv. }
    congruence.
Qed.

Lemma errors_tell_positive_definite_witness :
  exists st,
    init_identity2 (DiagLib.diag [2; 1]) false = Ok st /\
    exists evs,
      linalg_eigvals lib (DiagLib.diag [2; 1]) = Ok evs /\
      (NCD.errors st = [] <-> forall v, In v evs -> 0 < v) /\
      (NCD.errors st = [] \/
       NCD.errors st = [NCD.ERR_NOT_POSITIVE_DEFINITE]).
Proof.
  eexists. split; [vm_compute; reflexivity|].
  eapply (errors_tell_positive_definite lib HLT (identity 2) 1 (identity 2)
            (column [1; 1]) (identity 2) (DiagLib.diag [2; 1]) 1 false).
  vm_compute. reflexivity.
Defined.

(** X6: [initialize] divides by the per-group sample size and by the standard
    deviation of the Gaussian predictor: when either is zero, no engine is
    constructed. *)
Theorem initialize_zero_divisor (C : Collaborators) test FEssence perGroupN
    Cfixed CGaussian thetaDiff sigmaStar stddevG exact :
  perGroupN == 0 \/ stddevG == 0 ->
  is_ok (NCD.initialize C test FEssence perGroupN Cfixed CGaussian thetaDiff
                        sigmaStar stddevG exact) = false.
Proof.
  intro Z.
  destruct (NCD.initialize C test FEssence perGroupN Cfixed CGaussian
              thetaDiff sigmaStar stddevG exact) as [st|] eqn:H;
    [|reflexivity].
  exfalso. unfold NCD.initialize in H.
  step_as H gram. step_as H FtFinverse. step_as H p1.
  step_eq H rN RN.
  step_as H PPt. step_as H PPtInverse. step_as H T1. step_as H FT1.
  destruct (NCD.getSigmaStarInverse C [] sigmaStar test) as [errs inverse].
  step_as H W. step_as H h1. step_as H h2. step_as H Hm.
  step_as H s1. step_as H s2. step_as H s3. step_as H s4.
  step_as H eigen. step_as H z1. step_as H z2. step_eq H rG RG.
  unfold pydiv in RN, RG.
  destruct Z as [Z|Z]; apply Qeq_bool_iff in Z.
  - rewrite Z in RN. discriminate RN.
  - rewrite Z in RG. discriminate RG.
Qed.

Lemma initialize_zero_divisor_witness :
  (0 == 0 \/ 1 == 0) /\
  NCD.initialize lib HLT (identity 2) 0 (identity 2) (column [1; 1])
                 (identity 2) (identity 2) 1 false
  = Raise ZeroDivisionError /\
  is_ok (NCD.initialize lib HLT (identity 2) 0 (identity 2) (column [1; 1])
                        (identity 2) (identity 2) 1 false) = false.
Proof.
  assert (Z : 0 == 0 \/ 1 == 0) by (left; reflexivity).
  split; [exact Z|]. split; [vm_compute; reflexivity|].
  exact (initialize_zero_divisor lib HLT (identity 2) 0 (identity 2)
           (column [1; 1]) (identity 2) (identity 2) 1 false Z).
Defined.

(** ** The weights of the chi-square terms *)

Lemma trace_scale (m : matrix) (c : Q) : trace (scale m c) == trace m * c.
Proof.
  unfold trace, scale. rewrite shape0_build, shape1_build.
  transitivity (sumn (Nat.min (shape0 m) (shape1 m))
                     (fun i => get m i i * c)).
  - apply sumn_ext. intros i Hi. rewrite get_build by lia. reflexivity.
  - apply sumn_scal_r.
Qed.

(** X7: With a Cholesky factor of [T1] from the library, the matrix [S] of a
    constructed engine has trace 1 whenever it has a row at all, and [H1]
    is then not zero: the eigenvalues of [S], from which [cdf] takes the
    weights of its terms, sum to one. *)
Theorem S_has_unit_trace (C : Collaborators) test FEssence perGroupN Cfixed
    CGaussian thetaDiff sigmaStar stddevG exact (st : NCD.engine) :
  NCD.initialize C test FEssence perGroupN Cfixed CGaussian thetaDiff
                 sigmaStar stddevG exact = Ok st ->
  cholesky_factor (NCD.T1 st) (NCD.FT1 st) ->
  shape0 (NCD.S st) <> 0%nat ->
  ~ NCD.H1 st == 0 /\ trace (NCD.S st) == 1.
Proof.
  intros I Chol NE. apply initialize_Ok in I.
  destruct I as (T1 & FT1 & errs & W & h1 & h2 & Hm & s1 & s2 & s3 & s4
                 & evs & vecs & mz & _ & G & Eh1 & Eh2 & EHm & Es1 & Es2
                 & Es3 & Es4 & Z & E & ->).
  cbn [NCD.T1 NCD.FT1 NCD.S NCD.H1] in *.
  destruct (run_shapes thetaDiff T1 FT1 W h1 h2 Hm s1 s2 s3 s4
              Eh1 Eh2 EHm Es1 Es2 Es3 Es4)
    as (_ & _ & _ & _ & _ & _ & _ & R0 & R1).
  unfold scale in NE. rewrite shape0_build in NE.
  assert (NZ : ~ trace Hm == 0).
  { assert (Em : is_empty s4 = false).
    { unfold is_empty. apply orb_false_iff.
      split; apply Nat.eqb_neq; congruence. }
    rewrite Em in Z. cbn [negb] in Z. rewrite andb_true_r in Z.
    intro Q0. apply Qeq_bool_iff in Q0. congruence. }
  split; [exact NZ|].
  assert (T : trace s4 == trace Hm).
  { rewrite (H1_is_trace thetaDiff T1 FT1 W h1 h2 Hm s1 s2 s3 s4
               Eh1 Eh2 EHm Es1 Es2 Es3 Es4 Chol).
    unfold trace, ftrace. rewrite R0, R1, Nat.min_id.
    apply sumn_ext. intros i Hi.
    apply (s4_entries thetaDiff T1 FT1 W h1 h2 Hm s1 s2 s3 s4
             Eh1 Eh2 EHm Es1 Es2 Es3 Es4); exact Hi. }
  rewrite trace_scale, T. field. exact NZ.
Qed.

Lemma S_has_unit_trace_witness :
  exists st,
    init_identity2 (DiagLib.diag [2; 1]) false = Ok st /\
    cholesky_factor (NCD.T1 st) (NCD.FT1 st) /\
    shape0 (NCD.S st) <> 0%nat /\
    ~ NCD.H1 st == 0 /\ trace (NCD.S st) == 1.
Proof.
  eexists. split; [vm_compute; reflexivity|].
  assert (Ch : cholesky_factor
                 (Matrix 2 2 [[1; 0]; [0; 1]]) (Matrix 2 2 [[1; 0]; [0; 1]])).
  { intros q p Hq Hp. cbn [shape0 shape1] in Hq, Hp.
    index_cases q Hq; index_cases p Hp; vm_compute; reflexivity. }
  match goal with
  | |- cholesky_factor (NCD.T1 ?st) _ /\ _ =>
      assert (T : NCD.T1 st = Matrix 2 2 [[1; 0]; [0; 1]])
        by (vm_compute; reflexivity);
      assert (F : NCD.FT1 st = Matrix 2 2 [[1; 0]; [0; 1]])
        by (vm_compute; reflexivity);
      assert (Ch' : cholesky_factor (NCD.T1 st) (NCD.FT1 st))
        by (rewrite T, F; exact Ch);
      assert (NE : shape0 (NCD.S st) <> 0%nat) by (vm_compute; lia);
      split; [exact Ch'|]; split; [exact NE|];
      apply (S_has_unit_trace lib HLT (identity 2) 1 (identity 2)
               (column [1; 1]) (identity 2) (DiagLib.diag [2; 1]) 1 false st);
      [vm_compute; reflexivity | exact Ch' | exact NE]
  end.
Defined.

(** ** The loop of [cdf] on a constructed engine *)

Lemma accumulate_terms acc lambda_ nu delta :
  length (NCD.chiSquareTerms (NCD.accumulate acc lambda_ nu delta))
  = (length (NCD.chiSquareTerms acc) + 1)%nat.
Proof.
  unfold NCD.accumulate.
  destruct (Qltb 0 lambda_); [|destruct (Qltb lambda_ 0)];
    cbn [NCD.chiSquareTerms]; rewrite length_app; reflexivity.
Qed.

(** The loop runs to its end when the eigenvalues and the rows of [mzSq]
    reach as far as [sStar], and appends one term for each round. *)
Lemma while_terms_completes sStar evs mz b0 :
  (sStar <= length evs)%nat -> (sStar <= shape0 mz)%nat ->
  (1 <= shape1 mz)%nat ->
  forall fuel k acc,
    (k + fuel = sStar)%nat ->
    exists m,
      NCD.while_terms sStar evs mz b0 fuel k acc = Ok m /\
      length (NCD.chiSquareTerms m)
      = (length (NCD.chiSquareTerms acc) + fuel)%nat.
Proof.
  intros Le Lm L1. induction fuel as [|fuel IH]; intros k acc K.
  - exists acc. split; [reflexivity | lia].
  - cbn [NCD.while_terms].
    assert (A : (k <? sStar)%nat = true) by (apply Nat.ltb_lt; lia).
    rewrite A.
    unfold NCD.index at 1.
    destruct (nth_error evs k) as [ev|] eqn:N.
    2:{ apply nth_error_None in N. lia. }
    cbn [bind]. unfold NCD.index2 at 1.
    assert (B : ((k <? shape0 mz) && (0 <? shape1 mz))%nat = true).
    { apply andb_true_iff. split; apply Nat.ltb_lt; lia. }
    rewrite B. cbn [bind].
    destruct (IH (k + 1)%nat (NCD.accumulate acc (b0 - ev) 1 (get mz k 0)))
      as (m & M & Lt); [lia|].
    exists m. split; [exact M|].
    rewrite Lt, accumulate_terms. lia.
Qed.

(** X8: On a constructed engine the loop of [cdf] never leaves the stored
    eigenvalues or [mzSq]: when the library returns at least as many
    eigenvector columns as eigenvalues and [CGaussian] has a column, the
    terms and their moments are computed for every [w], one base term and
    one term for each of the [sStar] positive eigenvalues. *)
Theorem termMoments_completes (C : Collaborators) test FEssence perGroupN
    Cfixed CGaussian thetaDiff sigmaStar stddevG exact (st : NCD.engine) :
  NCD.initialize C test FEssence perGroupN Cfixed CGaussian thetaDiff
                 sigmaStar stddevG exact = Ok st ->
  (forall evs vecs, linalg_eig C (NCD.S st) = Ok (evs, vecs) ->
                    (length evs <= shape1 vecs)%nat) ->
  (1 <= shape1 CGaussian)%nat ->
  forall w, exists m,
    NCD.termMoments st w = Ok m /\
    length (NCD.chiSquareTerms m) = (NCD.sStar st + 1)%nat.
Proof.
  intros I Lib G w. apply initialize_state in I.
  destruct I as (evs & vecs & z & rG & E & Ev & St & _ & Mz & Z0 & Z1 & _).
  specialize (Lib evs vecs E).
  assert (Le : (NCD.sStar st <= length evs)%nat).
  { rewrite St, countPositive_positives, positives_rev.
    apply positives_le_length. }
  unfold NCD.termMoments.
  destruct (while_terms_completes (NCD.sStar st) (NCD.sEigenValues st)
              (NCD.mzSq st) (1 - w / NCD.H1 st))
    with (fuel := NCD.sStar st) (k := 0%nat)
         (acc := NCD.accumulate NCD.moments0 (1 - w / NCD.H1 st)
                   (NCD.N st - NCD.ofnat (NCD.qF st)) 0)
    as (m & M & Lt).
  - rewrite Ev, length_rev. exact Le.
  - rewrite Mz. unfold NCD.squareEntries, scale.
    rewrite !shape0_build, Z0. lia.
  - rewrite Mz. unfold NCD.squareEntries, scale.
    rewrite !shape1_build, Z1. exact G.
  - reflexivity.
  - exists m. split; [exact M|].
    rewrite Lt, accumulate_terms. cbn [NCD.moments0 NCD.chiSquareTerms length].
    lia.
Qed.

Lemma termMoments_completes_witness :
  exists st,
    init_identity2 (DiagLib.diag [2; 1]) false = Ok st /\
    exists m,
      NCD.termMoments st 1 = Ok m /\
      length (NCD.chiSquareTerms m) = (NCD.sStar st + 1)%nat.
Proof.
  eexists. split; [vm_compute; reflexivity|].
  eapply (termMoments_completes lib HLT (identity 2) 1 (identity 2)
            (column [1; 1]) (identity 2) (DiagLib.diag [2; 1]) 1 false).
  - vm_compute. reflexivity.
  - intros evs vecs E. vm_compute in E. injection E as <- <-.
    vm_compute. lia.
  - vm_compute. lia.
Defined.

Lemma lowerBound_above (h e0 : Q) (rest : list Q) :
  h * (1 - e0) <= NCD.lowerBound h (e0 :: rest).
Proof.
  unfold NCD.lowerBound.
  destruct (Qle_bool (h * (1 - e0)) 0) eqn:B.
  - apply Qle_bool_iff in B. exact B.
  - apply Qle_refl.
Qed.

Lemma accumulate_negative_kept acc lambda_ nu delta :
  (1 <= NCD.numNegative acc)%nat ->
  (1 <= NCD.numNegative (NCD.accumulate acc lambda_ nu delta))%nat.
Proof.
  intro H. unfold NCD.accumulate.
  destruct (Qltb 0 lambda_); [|destruct (Qltb lambda_ 0)];
    cbn [NCD.numNegative]; lia.
Qed.

(** X9: Inside the support of a constructed engine with [sStar >= 1], the
    term of the first stored eigenvalue has negative weight and the base
    term positive weight: both counts are at least 1, so neither of the
    two early results of [cdf] after the loop (0 for no negative term, 1
    for no positive term) is taken. *)
Theorem both_signs_inside_support (C : Collaborators) test FEssence perGroupN
    Cfixed CGaussian thetaDiff sigmaStar stddevG exact (st : NCD.engine)
    (w : Q) (m : NCD.moments) :
  NCD.initialize C test FEssence perGroupN Cfixed CGaussian thetaDiff
                 sigmaStar stddevG exact = Ok st ->
  (1 <= NCD.sStar st)%nat ->
  0 < NCD.H1 st -> NCD.H0 st < w -> w < NCD.H1 st ->
  NCD.termMoments st w = Ok m ->
  (1 <= NCD.numNegative m)%nat /\ (1 <= NCD.numPositive m)%nat.
Proof.
  intros I S1 P L U M.
  assert (Pos : (1 <= NCD.numPositive m)%nat)
    by (apply (single_positive_term_is_central st w m P U M)).
  assert (Neg : (1 <= NCD.numNegative m)%nat).
  { apply initialize_state in I.
    destruct I as (evs & vecs & z & rG & _ & Ev & _ & H0 & _).
    unfold NCD.termMoments in M.
    destruct (NCD.sStar st) as [|n] eqn:Sn; [lia|].
    cbn [NCD.while_terms] in M. rewrite <- Sn in M.
    assert (A : (0 <? NCD.sStar st)%nat = true) by (apply Nat.ltb_lt; lia).
    rewrite A in M.
    destruct (NCD.sEigenValues st) as [|e0 rest] eqn:Es;
      [cbn in M; discriminate M|].
    cbn [NCD.index nth_error bind] in M.
    step_as M delta.
    revert M.
    apply (while_terms_invariant (fun m => (1 <= NCD.numNegative m)%nat)).
    - intros acc lambda_ nu d. apply accumulate_negative_kept.
    - assert (B : 1 - w / NCD.H1 st - e0 < 0).
      { assert (D : 1 - e0 < w / NCD.H1 st).
        { apply Qlt_shift_div_l; [exact P|].
          pose proof (lowerBound_above (NCD.H1 st) e0 rest) as LB.
          rewrite <- Ev in H0. rewrite <- H0 in LB.
          setoid_replace ((1 - e0) * NCD.H1 st)
            with (NCD.H1 st * (1 - e0)) by ring.
          lra. }
        lra. }
      unfold NCD.accumulate at 1.
      assert (B1 : Qltb 0 (1 - w / NCD.H1 st - e0) = false)
        by (apply Qltb_false_iff; lra).
      assert (B2 : Qltb (1 - w / NCD.H1 st - e0) 0 = true)
        by (apply Qltb_iff; exact B).
      rewrite B1, B2. cbn [NCD.numNegative]. lia. }
  split; [exact Neg | exact Pos].
Qed.

Lemma both_signs_inside_support_witness :
  exists st m,
    init_identity2 (DiagLib.diag [2; 1]) false = Ok st /\
    NCD.termMoments st 1 = Ok m /\
    (1 <= NCD.numNegative m)%nat /\ (1 <= NCD.numPositive m)%nat.
Proof.
  eexists. eexists. split; [vm_compute; reflexivity|].
  split; [vm_compute; reflexivity|].
  eapply (both_signs_inside_support lib HLT (identity 2) 1 (identity 2)
            (column [1; 1]) (identity 2) (DiagLib.diag [2; 1]) 1 false _ 1).
  - vm_compute. reflexivity.
  - vm_compute. lia.
  - vm_compute. reflexivity.
  - vm_compute. reflexivity.
  - vm_compute. reflexivity.
  - vm_compute. reflexivity.
Defined.

(** ** The moments behind the Satterthwaite approximation *)

(** The loop keeps what every [accumulate] of a loop term keeps: the
    degrees of freedom of such a term are 1 and its noncentrality is an
    entry of [mzSq]. *)
Lemma while_terms_invariant_entries (P : NCD.moments -> Prop) sStar evs mz b0 :
  (forall acc lambda_ k,
      P acc -> P (NCD.accumulate acc lambda_ 1 (get mz k 0))) ->
  forall fuel k acc m,
    P acc ->
    NCD.while_terms sStar evs mz b0 fuel k acc = Ok m -> P m.
Proof.
  intro Step. induction fuel as [|fuel IH]; intros k acc m Pa W.
  - cbn in W. injection W as <-. exact Pa.
  - cbn [NCD.while_terms] in W.
    destruct (k <? sStar)%nat.
    + step_as W ev. unfold NCD.index2 at 1 in W.
      destruct ((k <? shape0 mz) && (0 <? shape1 mz))%nat; cbn [bind] in W;
        [|discriminate W].
      apply (IH _ _ _ (Step _ _ k Pa) W).
    + injection W as <-. exact Pa.
Qed.

Lemma accumulate_moments_positive acc lambda_ delta :
  0 <= delta -> moments_positive acc ->
  moments_positive (NCD.accumulate acc lambda_ 1 delta).
Proof.
  intros D (A & B & E & F & G). unfold NCD.accumulate, moments_positive.
  destruct (Qltb 0 lambda_) eqn:L1; [|destruct (Qltb lambda_ 0) eqn:L2];
    cbn [NCD.m1Positive NCD.m2Positive NCD.m1Negative NCD.m2Negative
         NCD.numNegative].
  - apply Qltb_iff in L1.
    assert (X : 0 < lambda_ * (1 + delta))
      by (apply Qmult_lt_0_compat; lra).
    assert (Y : 0 < lambda_ * lambda_ * 2 * (1 + 2 * delta)).
    { apply Qmult_lt_0_compat; [|lra].
      apply Qmult_lt_0_compat; [|lra].
      apply Qmult_lt_0_compat; exact L1. }
    repeat split; try lra; apply G; assumption.
  - apply Qltb_iff in L2.
    assert (X : 0 < -1 * lambda_ * (1 + delta)).
    { apply Qmult_lt_0_compat; lra. }
    assert (Y : 0 < lambda_ * lambda_ * 2 * (1 + 2 * delta)).
    { apply Qmult_lt_0_compat; [|lra].
      apply Qmult_lt_0_compat; [|lra].
      apply Qsquare_pos. intro Z. rewrite Z in L2. lra. }
    repeat split; try lra.
  - repeat split; try assumption; apply G; assumption.
Qed.

(** X10: Inside the support of a constructed engine with more observations
    than design columns ([N > qF]), the first and second moments of the
    positive terms are positive, and so are those of the negative terms
    as soon as there is one: every divisor of the Satterthwaite
    approximation in [cdf] is different from zero. *)
Theorem satterthwaite_moments_positive (C : Collaborators) test FEssence
    perGroupN Cfixed CGaussian thetaDiff sigmaStar stddevG exact
    (st : NCD.engine) (w : Q) (m : NCD.moments) :
  NCD.initialize C test FEssence perGroupN Cfixed CGaussian thetaDiff
                 sigmaStar stddevG exact = Ok st ->
  NCD.ofnat (NCD.qF st) < NCD.N st ->
  0 < NCD.H1 st -> w < NCD.H1 st ->
  NCD.termMoments st w = Ok m ->
  0 < NCD.m1Positive m /\ 0 < NCD.m2Positive m /\
  ((1 <= NCD.numNegative m)%nat ->
   0 < NCD.m1Negative m /\ 0 < NCD.m2Negative m /\
   0 < 2 * (NCD.m1Negative m * NCD.m1Negative m) / NCD.m2Negative m) /\
  0 < 2 * (NCD.m1Positive m * NCD.m1Positive m) / NCD.m2Positive m.
Proof.
  intros I Nq P U M.
  assert (Mz : forall i j, 0 <= get (NCD.mzSq st) i j).
  { apply initialize_state in I.
    destruct I as (evs & vecs & z & rG & _ & _ & _ & _ & Mz & _).
    intros i j. rewrite Mz. unfold NCD.squareEntries.
    destruct (Nat.lt_ge_cases i (shape0 (scale z rG))) as [Hi|Hi];
      [destruct (Nat.lt_ge_cases j (shape1 (scale z rG))) as [Hj|Hj]|].
    + rewrite get_build by assumption. apply Qsquare_nonneg.
    + rewrite get_build_outside by (right; exact Hj). apply Qle_refl.
    + rewrite get_build_outside by (left; exact Hi). apply Qle_refl. }
  assert (MP : moments_positive m).
  { unfold NCD.termMoments in M. revert M.
    apply (while_terms_invariant_entries moments_positive).
    - intros acc lambda_ k. apply accumulate_moments_positive. apply Mz.
    - assert (B : 0 < 1 - w / NCD.H1 st).
      { assert (D : w / NCD.H1 st < 1).
        { apply Qlt_shift_div_r; [exact P | lra]. }
        lra. }
      unfold NCD.accumulate.
      assert (B1 : Qltb 0 (1 - w / NCD.H1 st) = true)
        by (apply Qltb_iff; exact B).
      rewrite B1. unfold moments_positive.
      cbn [NCD.m1Positive NCD.m2Positive NCD.m1Negative NCD.m2Negative
           NCD.numNegative NCD.moments0].
      set (b0 := 1 - w / NCD.H1 st) in *.
      set (nu := NCD.N st - NCD.ofnat (NCD.qF st)).
      assert (Nu : 0 < nu) by (unfold nu; lra).
      assert (X : 0 < b0 * (nu + 0)) by (apply Qmult_lt_0_compat; lra).
      assert (Y : 0 < b0 * b0 * 2 * (nu + 2 * 0)).
      { apply Qmult_lt_0_compat; [|lra].
        apply Qmult_lt_0_compat; [|lra].
        apply Qmult_lt_0_compat; exact B. }
      split; [lra|]. split; [lra|]. split; [lra|]. split; [lra|].
      intro Ng. lia. }
  destruct MP as (A & B & _ & _ & G).
  assert (Ratio : forall x y, 0 < x -> 0 < y -> 0 < 2 * (x * x) / y).
  { intros x y Hx Hy. apply Qlt_shift_div_l; [exact Hy|].
    assert (0 < x * x) by (apply Qmult_lt_0_compat; exact Hx). lra. }
  split; [exact A|]. split; [exact B|]. split.
  - intro Ng. destruct (G Ng) as [G1 G2].
    split; [exact G1|]. split; [exact G2|]. apply Ratio; assumption.
  - apply Ratio; assumption.
Qed.

Lemma satterthwaite_moments_positive_witness :
  exists st m,
    init_scalar 1 = Ok st /\
    NCD.termMoments st 2 = Ok m /\
    NCD.ofnat (NCD.qF st) < NCD.N st /\
    0 < NCD.m1Positive m /\ 0 < NCD.m2Positive m /\
    ((1 <= NCD.numNegative m)%nat ->
     0 < NCD.m1Negative m /\ 0 < NCD.m2Negative m /\
     0 < 2 * (NCD.m1Negative m * NCD.m1Negative m) / NCD.m2Negative m) /\
    0 < 2 * (NCD.m1Positive m * NCD.m1Positive m) / NCD.m2Positive m.
Proof.
  eexists. eexists. split; [vm_compute; reflexivity|].
  split; [vm_compute; reflexivity|].
  split; [vm_compute; reflexivity|].
  eapply (satterthwaite_moments_positive lib HLT (identity 1) 4 (identity 1)
            (column [1]) (identity 1) (identity 1) 1 false _ 2).
  - vm_compute. reflexivity.
  - vm_compute. reflexivity.
  - vm_compute. reflexivity.
  - vm_compute. reflexivity.
  - vm_compute. reflexivity.
Defined.

(** ** Where [inverseCDF] lands *)

(** What the bisection returns lies in the interval that is left, and is
    a point at which the function was evaluated. *)
Lemma bisect_loop_range (f : Q -> result Q) (fa : Q) :
  forall fuel xa dm w,
    0 <= dm ->
    bisect_loop f fuel xa dm fa = Ok w ->
    xa <= w /\ w <= xa + dm /\ exists y, f w = Ok y.
Proof.
  induction fuel as [|fuel IH]; intros xa dm w D H.
  - cbn in H. discriminate H.
  - cbn [bisect_loop] in H.
    destruct (f (xa + dm * (1 # 2))) as [fm|] eqn:F; cbn [bind] in H;
      [|discriminate H].
    destruct (Qeq_bool fm 0
              || Qltb (Qabs (dm * (1 # 2)))
                      (xtol + rtol * Qabs (xa + dm * (1 # 2)))).
    + injection H as <-.
      split; [lra|]. split; [lra|]. exists fm. exact F.
    + apply IH in H; [|lra].
      destruct H as (A & B & Y).
      destruct (Qle_bool 0 (fm * fa)); (split; [lra|]; split; [lra|exact Y]).
Qed.

Lemma bisect_range (f : Q -> result Q) (a b w : Q) :
  a <= b -> bisect f a b = Ok w ->
  a <= w /\ w <= b /\ exists y, f w = Ok y.
Proof.
  intros L H. unfold bisect in H.
  destruct (f a) as [fa|] eqn:Fa; cbn [bind] in H; [|discriminate H].
  destruct (f b) as [fb|] eqn:Fb; cbn [bind] in H; [|discriminate H].
  destruct (Qltb 0 (fa * fb)); [discriminate H|].
  destruct (Qeq_bool fa 0).
  { injection H as <-. split; [lra|]. split; [lra|]. exists fa. exact Fa. }
  destruct (Qeq_bool fb 0).
  { injection H as <-. split; [lra|]. split; [lra|]. exists fb. exact Fb. }
  apply bisect_loop_range in H; [|lra].
  destruct H as (A & B & Y). split; [lra|]. split; [lra | exact Y].
Qed.

(** X11: Whenever [inverseCDF] returns on an engine with [0 < H1] and
    [H0 <= H1], the value lies between [H0] and [H1], and [cdf] at that
    value is a number. *)
Theorem inverseCDF_within_support (C : Collaborators) (self : NCD.engine)
    (quantile w : Q) :
  0 < NCD.H1 self -> NCD.H0 self <= NCD.H1 self ->
  NCD.inverseCDF C self quantile = Ok w ->
  NCD.H0 self <= w /\ w <= NCD.H1 self /\
  exists p, NCD.cdf C self w = Ok (Number p).
Proof.
  intros P L H. unfold NCD.inverseCDF in H.
  rewrite (Qle_bool_false _ _ P) in H.
  destruct (bisect (NCD.quantFunc C self quantile) (NCD.H0 self)
              (NCD.H1 self)) as [x|] eqn:B; [|discriminate H].
  injection H as <-.
  destruct (bisect_range _ _ _ _ L B) as (A1 & A2 & y & Y).
  split; [exact A1|]. split; [exact A2|].
  unfold NCD.quantFunc in Y.
  destruct (NCD.cdf C self x) as [v|]; cbn [bind] in Y; [|discriminate Y].
  destruct v as [p| |]; try discriminate Y.
  exists p. reflexivity.
Qed.

Lemma inverseCDF_within_support_witness :
  exists st w,
    init_scalar 1 = Ok st /\
    0 < NCD.H1 st /\ NCD.H0 st <= NCD.H1 st /\
    NCD.inverseCDF lib st (1 # 3) = Ok w /\ w == 2 /\
    NCD.H0 st <= w /\ w <= NCD.H1 st /\
    exists p, NCD.cdf lib st w = Ok (Number p).
Proof.
  eexists. eexists. split; [vm_compute; reflexivity|].
  split; [vm_compute; reflexivity|].
  split; [vm_compute; intro H; discriminate H|].
  split; [vm_compute; reflexivity|].
  split; [vm_compute; reflexivity|].
  eapply (inverseCDF_within_support lib _ (1 # 3)).
  - vm_compute. reflexivity.
  - vm_compute. intro H. discriminate H.
  - vm_compute. reflexivity.
Defined.

(** ** The helpers of [unirep] *)

Lemma pydiv_one (rank_U : Q) :
  ~ rank_U == 0 -> pydiv 1 rank_U = Ok (1 / rank_U).
Proof.
  intro NZ. unfold pydiv.
  destruct (Qeq_bool rank_U 0) eqn:E; [|reflexivity].
  apply Qeq_bool_iff in E. contradiction.
Qed.

Lemma Qinv_le_one (rank_U : Q) : 1 <= rank_U -> 1 / rank_U <= 1.
Proof. intro H. apply Qle_shift_div_r; lra. Qed.

(** X12: [_err_checking] with [rank_U >= 1] clamps its argument to the
    interval from [1 / rank_U] to 1: a value below is raised to
    [1 / rank_U] with the warning PowerWarn17, a value above is lowered to
    1 with the warning PowerWarn18, and a value inside is returned as it
    is, with no warning. *)
Theorem err_checking_clamps (e_1_2 rank_U : Q) :
  1 <= rank_U ->
  exists issued r,
    unirep._err_checking e_1_2 rank_U = (issued, Ok r) /\
    1 / rank_U <= r /\ r <= 1 /\
    ((e_1_2 < 1 / rank_U /\ issued = [unirep.PowerWarn17]
      /\ r = 1 / rank_U) \/
     (1 / rank_U <= e_1_2 /\ e_1_2 <= 1 /\ issued = [] /\ r = e_1_2) \/
     (1 < e_1_2 /\ issued = [unirep.PowerWarn18] /\ r = 1)).
Proof.
  intro R. pose proof (Qinv_le_one rank_U R) as L.
  unfold unirep._err_checking. rewrite pydiv_one by lra.
  destruct (Qltb e_1_2 (1 / rank_U)) eqn:A.
  - apply Qltb_iff in A.
    assert (B : Qltb 1 (1 / rank_U) = false) by (apply Qltb_false_iff; lra).
    rewrite B. eexists. eexists. split; [reflexivity|].
    split; [lra|]. split; [lra|]. left. repeat split. exact A.
  - apply Qltb_false_iff in A.
    destruct (Qltb 1 e_1_2) eqn:B.
    + apply Qltb_iff in B. eexists. eexists. split; [reflexivity|].
      split; [lra|]. split; [lra|]. right. right. repeat split. exact B.
    + apply Qltb_false_iff in B. eexists. eexists. split; [reflexivity|].
      split; [lra|]. split; [lra|]. right. left. repeat split; assumption.
Qed.

Lemma err_checking_clamps_witness :
  1 <= 4 /\
  unirep._err_checking (1 # 10) 4 = ([unirep.PowerWarn17], Ok (1 / 4)) /\
  exists issued r,
    unirep._err_checking (1 # 10) 4 = (issued, Ok r) /\
    1 / 4 <= r /\ r <= 1 /\
    ((1 # 10 < 1 / 4 /\ issued = [unirep.PowerWarn17] /\ r = 1 / 4) \/
     (1 / 4 <= 1 # 10 /\ 1 # 10 <= 1 /\ issued = [] /\ r = 1 # 10) \/
     (1 < 1 # 10 /\ issued = [unirep.PowerWarn18] /\ r = 1)).
Proof.
  assert (R : 1 <= 4) by (vm_compute; intro H; discriminate H).
  split; [exact R|]. split; [reflexivity|].
  exact (err_checking_clamps (1 # 10) 4 R).
Defined.

(** X13: [_err_checking] never returns more than 1, a second pass returns what
    the first returned, and the only exception is the division by a zero
    [rank_U]. *)
Theorem err_checking_idempotent (e_1_2 rank_U : Q) :
  match snd (unirep._err_checking e_1_2 rank_U) with
  | Ok r => r <= 1 /\ snd (unirep._err_checking r rank_U) = Ok r
  | Raise e => e = ZeroDivisionError /\ rank_U == 0
  end.
Proof.
  unfold unirep._err_checking at 1. unfold pydiv.
  destruct (Qeq_bool rank_U 0) eqn:Z.
  { cbn [snd]. split; [reflexivity|]. apply Qeq_bool_iff. exact Z. }
  assert (NZ : ~ rank_U == 0).
  { intro H. apply Qeq_bool_iff in H. congruence. }
  assert (Again : forall r, r <= 1 ->
            (1 / rank_U <= r \/ (1 < 1 / rank_U /\ r = 1)) ->
            snd (unirep._err_checking r rank_U) = Ok r).
  { intros r R1 Cases. unfold unirep._err_checking.
    rewrite pydiv_one by exact NZ.
    destruct Cases as [Lo|[Hi ->]].
    - assert (A : Qltb r (1 / rank_U) = false)
        by (apply Qltb_false_iff; exact Lo).
      assert (B : Qltb 1 r = false) by (apply Qltb_false_iff; exact R1).
      rewrite A, B. reflexivity.
    - assert (A : Qltb 1 (1 / rank_U) = true) by (apply Qltb_iff; exact Hi).
      rewrite A, A. reflexivity. }
  destruct (Qltb e_1_2 (1 / rank_U)) eqn:A.
  - destruct (Qltb 1 (1 / rank_U)) eqn:B; cbn [snd].
    + apply Qltb_iff in B. split; [lra|].
      apply Again; [lra|]. right. split; [exact B | reflexivity].
    + apply Qltb_false_iff in B. split; [exact B|].
      apply Again; [exact B|]. left. apply Qle_refl.
  - apply Qltb_false_iff in A.
    destruct (Qltb 1 e_1_2) eqn:B; cbn [snd].
    + apply Qltb_iff in B. split; [lra|].
      apply Again; [lra|].
      destruct (Qlt_le_dec 1 (1 / rank_U)) as [H|H];
        [right; split; [exact H | reflexivity] | left; exact H].
    + apply Qltb_false_iff in B. split; [exact B|].
      apply Again; [exact B|]. left. exact A.
Qed.

Lemma nu_a_bound (nu_e : Q) :
  3 <= nu_e -> 5 <= nu_e - 1 + nu_e * (nu_e - 1) / 2.
Proof.
  intro H.
  assert (P : 0 <= (nu_e - 3) * (nu_e + 4))
    by (apply Qmult_le_0_compat; lra).
  setoid_replace (nu_e - 1 + nu_e * (nu_e - 1) / 2)
    with (5 + (nu_e - 3) * (nu_e + 4) * (1 # 2)) by field.
  lra.
Qed.

(** X14: For three or more error degrees of freedom ([total_N - rank_X >= 3])
    the factor of the Chi-Muller estimate lies between 0 and 1: the
    function returns, and what it returns for a nonnegative [exeps] is
    not negative and not above [exeps]. *)
Theorem cm_estimator_shrinks (exeps rank_X total_N : Q) :
  3 <= total_N - rank_X -> 0 <= exeps ->
  exists r,
    unirep._calc_cm_expected_epsilon_estimator exeps rank_X total_N = Ok r /\
    0 <= r /\ r <= exeps.
Proof.
  intros D E. unfold unirep._calc_cm_expected_epsilon_estimator.
  destruct (Qeq_bool (total_N - rank_X) 1) eqn:One.
  { apply Qeq_bool_iff in One. lra. }
  set (nu_e := total_N - rank_X) in *.
  pose proof (nu_a_bound nu_e D) as A.
  set (nu_a := nu_e - 1 + nu_e * (nu_e - 1) / 2) in *.
  assert (Sq : nu_a ^ 2 == nu_a * nu_a) by reflexivity.
  assert (Pos : 0 < nu_a * nu_a) by (apply Qmult_lt_0_compat; lra).
  unfold pydiv.
  destruct (Qeq_bool (nu_a ^ 2) 0) eqn:Z.
  { apply Qeq_bool_iff in Z. rewrite Sq in Z. lra. }
  cbn [bind]. eexists. split; [reflexivity|].
  assert (F0 : 0 <= (nu_a - 2) * (nu_a - 4) / nu_a ^ 2).
  { rewrite Sq. apply Qle_shift_div_l; [exact Pos|].
    assert (0 <= (nu_a - 2) * (nu_a - 4))
      by (apply Qmult_le_0_compat; lra).
    lra. }
  assert (F1 : (nu_a - 2) * (nu_a - 4) / nu_a ^ 2 <= 1).
  { rewrite Sq. apply Qle_shift_div_r; [exact Pos|].
    setoid_replace ((nu_a - 2) * (nu_a - 4))
      with (nu_a * nu_a - 6 * nu_a + 8) by ring.
    lra. }
  set (f := (nu_a - 2) * (nu_a - 4) / nu_a ^ 2) in *.
  split.
  - apply Qmult_le_0_compat; assumption.
  - assert (0 <= (1 - f) * exeps) by (apply Qmult_le_0_compat; lra).
    setoid_replace (f * exeps) with (exeps - (1 - f) * exeps) by ring.
    lra.
Qed.

Lemma cm_estimator_shrinks_witness :
  3 <= 10 - 7 /\ 0 <= 1 # 2 /\
  exists r,
    unirep._calc_cm_expected_epsilon_estimator (1 # 2) 7 10 = Ok r /\
    r == 3 # 50 /\ 0 <= r /\ r <= 1 # 2.
Proof.
  assert (D : 3 <= 10 - 7) by (vm_compute; intro H; discriminate H).
  assert (E : 0 <= 1 # 2) by (vm_compute; intro H; discriminate H).
  split; [exact D|]. split; [exact E|].
  destruct (cm_estimator_shrinks (1 # 2) 7 10 D E) as (r & R & A & B).
  exists r. split; [exact R|]. split; [|split; assumption].
  vm_compute in R. injection R as <-. reflexivity.
Defined.


(** X16: [_calc_undf1_undf2] returns exactly when [exeps] is a number, the
    error degrees of freedom [nue] are positive and, for the uncorrected,
    Geisser-Greenhouse and Box tests, [rank_U] does not exceed [nue]; it
    then returns [rank_C * rank_U] and [rank_U * nue]. A warning is issued
    only together with the exception of the high-dimension case. *)
Theorem calc_undf1_undf2_returns (approximation : test_tag)
    (exeps : unirep.pyfloat) (nue rank_C rank_U u1 u2 : Q) :
  (snd (unirep._calc_undf1_undf2 approximation exeps nue rank_C rank_U)
   = Ok (u1, u2)
   <->
   unirep.isnan exeps = false /\ 0 < nue /\
   (rank_U <= nue \/
    approximation = HF \/ approximation = CM \/ approximation = HLT) /\
   u1 = rank_C * rank_U /\ u2 = rank_U * nue) /\
  (fst (unirep._calc_undf1_undf2 approximation exeps nue rank_C rank_U) = []
   \/
   unirep._calc_undf1_undf2 approximation exeps nue rank_C rank_U
   = ([unirep.HDLSS_warning],
      Raise (Exception "#TODO what kind of exception"))).
Proof.
  unfold unirep._calc_undf1_undf2.
  destruct (Qltb nue rank_U) eqn:A;
    [apply Qltb_iff in A | apply Qltb_false_iff in A];
    destruct exeps as [q|]; cbn [unirep.isnan];
    destruct (Qle_bool nue 0) eqn:B;
    try (apply Qle_bool_iff in B);
    try (assert (B' : 0 < nue)
           by (apply Qnot_le_lt; intro H; apply Qle_bool_iff in H;
               congruence));
    destruct approximation; cbn [test_eqb orb andb fst snd];
    (split; [split; [intro H; try discriminate H;
                     injection H as <- <-; repeat split; auto
                    | intros (N & P & D & -> & ->);
                      try discriminate N; try lra;
                      try reflexivity;
                      destruct D as [D|[D|[D|D]]];
                      try discriminate D; try lra; try reflexivity]
           | try (left; reflexivity); right; reflexivity]).
Qed.

Section PowerApproximation.

Variable C : Collaborators.
Variable NORMAL_LR : fmethod.

(** X17: When [probf] returns a probability and [alpha] is one, the power
    that [_calc_power_muller_approx] reports is a probability: it is
    [1 - prob], except that [alpha] stands in when the normal
    approximation reports probability 1. With that method the power
    reported is never 0 for a positive [alpha]. The degrees of freedom
    returned are the unadjusted ones times their multipliers. *)
Theorem calc_power_muller_approx_bounds
    (undf1 undf2 omega alpha e_3_5 e_4 fcrit prob : Q) (method : fmethod) :
  probf C fcrit (undf1 * e_3_5) (undf2 * e_4) omega = Ok (prob, method) ->
  0 <= prob -> prob <= 1 -> 0 <= alpha -> alpha <= 1 ->
  exists power,
    unirep._calc_power_muller_approx C NORMAL_LR undf1 undf2 omega alpha
                                     e_3_5 e_4 fcrit
    = Ok (undf1 * e_3_5, undf2 * e_4, power) /\
    0 <= power /\ power <= 1 /\
    (power = 1 - prob \/ (power = alpha /\ prob == 1 /\ method = NORMAL_LR)) /\
    (method = NORMAL_LR -> 0 < alpha -> 0 < power).
Proof.
  intros P P0 P1 A0 A1. unfold unirep._calc_power_muller_approx.
  rewrite P. cbn [bind].
  destruct (unirep.fmethod_eqb method NORMAL_LR) eqn:M;
    destruct (Qeq_bool prob 1) eqn:E; cbn [andb];
    eexists; (split; [reflexivity|]).
  - apply Qeq_bool_iff in E.
    assert (Me : method = NORMAL_LR).
    { destruct method as [s], NORMAL_LR as [t]. cbn in M.
      apply Nat.eqb_eq in M. congruence. }
    split; [exact A0|]. split; [exact A1|].
    split; [right; repeat split; assumption|]. intros _ Ap. exact Ap.
  - assert (Ne : ~ prob == 1).
    { intro H. apply Qeq_bool_iff in H. congruence. }
    split; [lra|]. split; [lra|]. split; [left; reflexivity|].
    intros _ _.
    assert (prob < 1).
    { apply Qnot_le_lt. intro H. apply Ne. apply Qle_antisym; assumption. }
    lra.
  - split; [lra|]. split; [lra|]. split; [left; reflexivity|].
    intros Me _. exfalso. subst method.
    destruct NORMAL_LR as [t]. cbn in M. rewrite Nat.eqb_refl in M.
    discriminate M.
  - split; [lra|]. split; [lra|]. split; [left; reflexivity|].
    intros Me _. exfalso. subst method.
    destruct NORMAL_LR as [t]. cbn in M. rewrite Nat.eqb_refl in M.
    discriminate M.
Qed.

Variables hypothesis_error power_object method_tag : Type.
Variable HypothesisError : matrix -> matrix -> Q -> result hypothesis_error.

(** X18: [unirep_power_known_sigma] never returns a power: when the check of
    the degrees of freedom passes and the [HypothesisError] object is
    built, the call of [_calc_multipliers_known_sigma] with eight
    arguments raises a [TypeError]; otherwise the exception of the failing
    step comes out. *)
Theorem unirep_power_known_sigma_raises (rank_C rank_U total_N rank_X : Q)
    (error_sum_square hypo_sum_square : matrix) (exeps : unirep.pyfloat)
    (eps alpha : Q) (approximation : test_tag) (unirepmethod : method_tag) :
  exists e,
    snd (unirep.unirep_power_known_sigma hypothesis_error power_object
           method_tag HypothesisError rank_C rank_U total_N rank_X
           error_sum_square hypo_sum_square exeps eps alpha approximation
           unirepmethod)
    = Raise e /\
    (forall u he,
        snd (unirep._calc_undf1_undf2 approximation exeps
               (total_N - rank_X) rank_C rank_U) = Ok u ->
        HypothesisError hypo_sum_square
          (unscale error_sum_square (total_N - rank_X)) rank_U = Ok he ->
        exists msg, e = TypeError msg).
Proof.
  unfold unirep.unirep_power_known_sigma.
  destruct (unirep._calc_undf1_undf2 approximation exeps
              (total_N - rank_X) rank_C rank_U) as [issued [[u1 u2]|e]].
  - destruct (HypothesisError hypo_sum_square
                (unscale error_sum_square (total_N - rank_X)) rank_U)
      as [he|e].
    + eexists. split; [reflexivity|]. intros _ _ _ _. eexists. reflexivity.
    + exists e. split; [reflexivity|]. intros _ he _ H. discriminate H.
  - exists e. split; [reflexivity|]. intros u he H. discriminate H.
Qed.

End PowerApproximation.

Lemma calc_power_muller_approx_bounds_witness :
  exists power,
    unirep._calc_power_muller_approx lib (FMethod 1) 2 6 3 (1 # 20) 1 1 1
    = Ok (2 * 1, 6 * 1, power) /\
    0 <= power /\ power <= 1 /\ power == 1 # 2.
Proof.
  destruct (calc_power_muller_approx_bounds lib (FMethod 1) 2 6 3 (1 # 20)
              1 1 1 (1 / (1 + 1)) (FMethod 0))
    as (power & E & A & B & D & _).
  - reflexivity.
  - vm_compute. intro H. discriminate H.
  - vm_compute. intro H. discriminate H.
  - vm_compute. intro H. discriminate H.
  - vm_compute. intro H. discriminate H.
  - exists power. split; [exact E|]. split; [exact A|]. split; [exact B|].
    destruct D as [->|[_ [D _]]].
    + reflexivity.
    + vm_compute in D. discriminate D.
Defined.
